(** * Yoga asana recommender: a shallow embedding of [yoga_recommender.py]

    Definitions, in the order of the class [YogaAsanaRecommender]:

    - [Py]: the fragment of Python the class relies on (exceptions, [int()],
      [str.lower()], sequence indexing);
    - [Doc], [Catalog]: the pose documents and the reverse index built by
      [__init__] (lines 22-34);
    - [Filter]: the loops of [recommend_asanas] (lines 61-76);
    - [Backend], [Recommender]: the object state, the lazily loaded model and
      lazily built FAISS index (lines 36-48), [find_all_matching_benefits]
      (lines 50-56) and [recommend_asanas] (lines 58-76);
    - [Toy]: a small backend and a small catalog to run the methods on;
    - [Report], [Outside], [App]: [fetch_image], [generate_pdf_in_memory],
      [add_page_border] and [send_email] (lines 78-160), and the routes of
      [app.py];
    - [ToyOutside]: a small outside to run the report and the routes on.

    Then the theorems: the loops as functions on lists, the reverse index,
    the invariants of the object, the matcher, and the claims of the
    specification with their instances on the small catalog; after them the
    report, the mail and the routes.

    Modelling conventions.  Strings are ASCII text.  The [age] and
    [gender] fields of a document, and the age and gender of a request, hold
    [None], an [int] or a [str] (the BSON types null, int32/int64 and
    string); doubles, arrays and sub-documents there are outside the model.
    [health_benefits], when present, is an array of strings.  The
    sentence-transformer model and the FAISS index are external: they enter
    as the operations of the class [Backend] ([encode] and [search] are taken
    to return, the other calls may raise), and what is assumed about them is
    collected in [BackendLaws].  The iteration order of a Python [set] enters
    the same way, as [SetOrder] and [SetOrderLaws].  The fields [asana]
    and [image_url] of a document, when present, are strings, and
    [pose_direction] and [contraindications] arrays of strings; the value
    under ['quotes'] of the quotes document is an array of strings.
    Constructors called on constants ([SimpleDocTemplate], [Spacer],
    [PageBreak], [MIMEMultipart], [MIMEBase]) and [jsonify] are taken to
    return; [render_template] is recorded as the call it is. *)

From Stdlib Require Import ZArith String Ascii List Lia Bool Permutation.
From stdpp Require Import base option list gmap sets strings sorting.

#[local] Set Warnings "-clear-no-such-hyp".

Local Open Scope string_scope.
Local Open Scope Z_scope.
Local Open Scope list_scope.

(** ** Python primitives *)

Module Py.

(** The built-in exceptions the code can raise, and one constructor for
    whatever an external library raises. *)
Inductive exn : Type :=
  | ValueError
  | TypeError
  | KeyError
  | AttributeError
  | IndexError
  | ExternalError (what : string).

(** An evaluation either returns a value or raises. *)
Inductive result (A : Type) : Type :=
  | Ok (a : A)
  | Raise (e : exn).
Arguments Ok {A} a.
Arguments Raise {A} e.

#[export] Instance result_ret : MRet result := λ A a, Ok a.
#[export] Instance result_bind : MBind result := λ A B k r,
  match r with
  | Ok a => k a
  | Raise e => Raise e
  end.

(** [for x in xs: acc = step acc x], stopping at the first exception. *)
Fixpoint foldM {A S : Type} (step : S → A → result S) (xs : list A) (s : S)
  : result S :=
  match xs with
  | [] => Ok s
  | x :: xs' => s' ← step s x; foldM step xs' s'
  end.

(** A value stored in a document field or received from the request form. *)
Inductive pyval : Type :=
  | PyNone
  | PyInt (z : Z)
  | PyStr (s : string).

(** *** [int()] *)

(** [Py_ISSPACE]: tab, LF, VT, FF, CR and space. *)
Definition is_space (c : ascii) : bool :=
  let n := nat_of_ascii c in
  ((9 <=? n)%nat && (n <=? 13)%nat) || (n =? 32)%nat.

Definition digit_value (c : ascii) : option Z :=
  let n := nat_of_ascii c in
  if ((48 <=? n)%nat && (n <=? 57)%nat)%bool then Some (Z.of_nat (n - 48)) else None.

Definition is_underscore (c : ascii) : bool := (nat_of_ascii c =? 95)%nat.

Fixpoint skip_spaces (s : string) : string :=
  match s with
  | String c s' => if is_space c then skip_spaces s' else s
  | EmptyString => s
  end.

(** The digit loop of [PyLong_FromString] in base 10, entered after a first
    digit: digits, each optionally preceded by one underscore.  [acc] is the
    value read so far; [after_us] says that the previous character was an
    underscore.  The loop stops at the first character that is neither and
    returns the rest; an underscore not followed by a digit is an error. *)
Fixpoint scan_digits (acc : Z) (after_us : bool) (s : string) : option (Z * string) :=
  match s with
  | EmptyString => if after_us then None else Some (acc, s)
  | String c s' =>
      match digit_value c with
      | Some d => scan_digits (10 * acc + d) false s'
      | None =>
          if is_underscore c
          then (if after_us then None else scan_digits acc true s')
          else (if after_us then None else Some (acc, s))
      end
  end.

(** The sign, then at least one digit. *)
Definition scan_signed (s : string) : option (Z * string) :=
  let '(neg, body) :=
    match s with
    | String "+" s' => (false, s')
    | String "-" s' => (true, s')
    | _ => (false, s)
    end in
  match body with
  | String c body' =>
      match digit_value c with
      | Some d =>
          match scan_digits d false body' with
          | Some (v, rest) => Some (if neg then (- v) else v, rest)
          | None => None
          end
      | None => None
      end
  | EmptyString => None
  end.

(** [int(s)] for a [str]: blanks, sign, digits, blanks, end of string. *)
Definition int_of_str (s : string) : option Z :=
  match scan_signed (skip_spaces s) with
  | Some (v, rest) =>
      match skip_spaces rest with
      | EmptyString => Some v
      | String _ _ => None
      end
  | None => None
  end.

(** [int(v)]: an [int] is returned as it is, a [str] is parsed
    ([ValueError] when malformed), [None] is a [TypeError]. *)
Definition py_int (v : pyval) : result Z :=
  match v with
  | PyInt z => Ok z
  | PyStr s =>
      match int_of_str s with
      | Some z => Ok z
      | None => Raise ValueError
      end
  | PyNone => Raise TypeError
  end.

(** *** [str.lower()] *)

Definition lower_ascii (c : ascii) : ascii :=
  let n := nat_of_ascii c in
  if ((65 <=? n)%nat && (n <=? 90)%nat)%bool then ascii_of_nat (n + 32) else c.

Fixpoint lower (s : string) : string :=
  match s with
  | EmptyString => EmptyString
  | String c s' => String (lower_ascii c) (lower s')
  end.

(** [v.lower()]: only a [str] has the method. *)
Definition py_lower (v : pyval) : result string :=
  match v with
  | PyStr s => Ok (lower s)
  | PyNone | PyInt _ => Raise AttributeError
  end.

(** *** Indexing *)

(** [xs[i]] with Python's negative indices; [IndexError] out of range. *)
Definition py_index {A : Type} (xs : list A) (i : Z) : result A :=
  let n := Z.of_nat (length xs) in
  let j := if i <? 0 then i + n else i in
  if (j <? 0) || (n <=? j) then Raise IndexError
  else match xs !! Z.to_nat j with
       | Some x => Ok x
       | None => Raise IndexError
       end.

End Py.
Import Py.


(** ** The catalog and its reverse index ([__init__], lines 22-34) *)

(** A MongoDB [_id]: an ObjectId, read as the number its twelve bytes spell. *)
Definition ObjectId : Type := N.

Module Doc.

(** A pose document as [collection.find] returns it with the projection of
    line 22.  [_id] is always there; every other field may be absent
    ([None] below), which is what [asana.get(key, default)] tests. *)
Record Asana : Type := {
  _id : ObjectId;
  asana : option string;
  age : option pyval;
  gender : option pyval;
  health_benefits : option (list string);
  pose_direction : option (list string);
  contraindications : option (list string);
  image_url : option string
}.

End Doc.
Abbreviation Asana := Doc.Asana.

(** [list(a_set)]: CPython does not specify the order in which a set of
    strings is iterated, so the conversion is an operation of the runtime. *)
Class SetOrder : Type := list_of_set : gset string → list string.

(** What the language promises of it: every element, once. *)
Class SetOrderLaws `{SetOrder} : Prop :=
  list_of_set_perm : ∀ X : gset string, list_of_set X ≡ₚ elements X.

Module Catalog.

(** [asana.get("health_benefits", [])] *)
Definition benefits_of (a : Asana) : list string :=
  default [] (Doc.health_benefits a).

(** [asana_map.get(benefit, [])] *)
Definition get (asana_map : gmap string (list Asana)) (benefit : string) : list Asana :=
  default [] (asana_map !! benefit).

(** The body of the inner loop (lines 29-30):
    [health_benefits.add(benefit)] and
    [asana_map.setdefault(benefit, []).append(asana)]. *)
Definition add_benefit (a : Asana)
    (acc : gmap string (list Asana) * gset string) (benefit : string)
  : gmap string (list Asana) * gset string :=
  (<[benefit := get acc.1 benefit ++ [a]]> acc.1, {[benefit]} ∪ acc.2).

(** The body of the outer loop (lines 28-30). *)
Definition add_asana (acc : gmap string (list Asana) * gset string) (a : Asana)
  : gmap string (list Asana) * gset string :=
  fold_left (add_benefit a) (benefits_of a) acc.

(** Lines 25-30: the reverse index and the set of labels. *)
Definition build (asanas : list Asana) : gmap string (list Asana) * gset string :=
  fold_left add_asana asanas (∅, ∅).

(** The poses under [benefit], in the order the loops append them: the
    catalog's order, a pose once per time it lists the label. *)
Definition entries (benefit : string) (asanas : list Asana) : list Asana :=
  a ← asanas; _ ← filter (λ b, b = benefit) (benefits_of a); [a].

End Catalog.

(** ** The recommendation loop ([recommend_asanas], lines 61-76) *)

Module Filter.

(** Lines 66-69: [int(asana.get("age", 0))], with [ValueError] (and only
    it) replaced by 0. *)
Definition asana_age (a : Asana) : result Z :=
  match py_int (default (PyInt 0) (Doc.age a)) with
  | Raise ValueError => Ok 0
  | r => r
  end.

(** [s == v] for a [str] [s]: equal strings; a [str] equals nothing else. *)
Definition str_eq (s : string) (v : pyval) : bool :=
  match v with
  | PyStr t => String.eqb s t
  | PyNone | PyInt _ => false
  end.

(** Line 71, the disjunction:
    [asana.get("gender", "all").lower() == gender
     or asana["gender"].lower() == "all"]. *)
Definition gender_matches (a : Asana) (gender : pyval) : result bool :=
  g ← py_lower (default (PyStr "all") (Doc.gender a));
  if str_eq g gender then Ok true
  else match Doc.gender a with
       | None => Raise KeyError
       | Some v => g' ← py_lower v; Ok (String.eqb g' "all")
       end.

(** Lines 66-71: the pose's age, then the whole condition of the [if],
    evaluated left to right with [and] and [or] short-circuiting. *)
Definition condition (a : Asana) (age gender : pyval) : result bool :=
  asana_age ← asana_age a;
  user_age ← py_int age;
  if asana_age <=? user_age then gender_matches a gender else Ok false.

(** The local variables [seen_asanas] and [recommended_asanas]. *)
Definition locals : Type := gset ObjectId * list Asana.

(** One iteration of the inner loop (lines 66-74). *)
Definition visit (age gender : pyval) (st : locals) (a : Asana) : result locals :=
  ok ← condition a age gender;
  if (ok : bool) then
    if decide (Doc._id a ∈ st.1) then Ok st
    else Ok ({[Doc._id a]} ∪ st.1, st.2 ++ [a])
  else Ok st.

(** One iteration of the outer loop (lines 65-74). *)
Definition visit_benefit (asana_map : gmap string (list Asana)) (age gender : pyval)
    (st : locals) (benefit : string) : result locals :=
  foldM (visit age gender) (Catalog.get asana_map benefit) st.

(** Lines 61-76. *)
Definition recommend_loop (asana_map : gmap string (list Asana))
    (matching_benefits : list string) (age gender : pyval) : result (list Asana) :=
  st ← foldM (visit_benefit asana_map age gender) matching_benefits (∅, []);
  Ok st.2.

(** The poses the loops visit, in order. *)
Definition visited (asana_map : gmap string (list Asana))
    (matching_benefits : list string) : list Asana :=
  b ← matching_benefits; Catalog.get asana_map b.

(** [condition] as a total test: [true] exactly when it evaluates
    to [True]. *)
Definition condition_true (age gender : pyval) (a : Asana) : bool :=
  match condition a age gender with
  | Ok b => b
  | Raise _ => false
  end.

(** The loop without its exceptions: keep the poses that pass [ok] and
    whose id is new, remembering the ids kept. *)
Fixpoint keep_new (ok : Asana → bool) (seen : gset ObjectId) (l : list Asana)
  : list Asana :=
  match l with
  | [] => []
  | a :: l' =>
      if ok a && negb (bool_decide (Doc._id a ∈ seen))
      then a :: keep_new ok ({[Doc._id a]} ∪ seen) l'
      else keep_new ok seen l'
  end.

(** The first exception the condition raises along a list of poses. *)
Fixpoint first_raise (age gender : pyval) (l : list Asana) : option exn :=
  match l with
  | [] => None
  | a :: l' =>
      match condition a age gender with
      | Raise e => Some e
      | Ok _ => first_raise age gender l'
      end
  end.

(** Ids identify the poses of a list (MongoDB's [_id] is unique). *)
Definition unique_ids (l : list Asana) : Prop :=
  ∀ x y, x ∈ l → y ∈ l → Doc._id x = Doc._id y → x = y.

(** The poses each matched benefit contributes: those of its entry that
    pass the condition and whose id no earlier benefit, and no earlier pose of
    this entry, has contributed. *)
Fixpoint segments (ok : Asana → bool) (seen : gset ObjectId)
    (asana_map : gmap string (list Asana)) (matching_benefits : list string)
  : list (list Asana) :=
  match matching_benefits with
  | [] => []
  | b :: bs =>
      let seg := keep_new ok seen (Catalog.get asana_map b) in
      seg :: segments ok (list_to_set (Doc._id <$> seg) ∪ seen) asana_map bs
  end.

(** A document the loop evaluates without raising: its gender is a
    string, and its age is absent, an [int] or a string. *)
Definition well_formed (a : Asana) : Prop :=
  (∃ g, Doc.gender a = Some (PyStr g)) ∧ Doc.age a ≠ Some PyNone.

(** The inclusion rule in the specification's words, the requested gender
    compared without regard to case like the pose's. *)
Definition spec_includes (min_age user_age : Z) (pose_gender requested : string) : bool :=
  (min_age <=? user_age)
  && (String.eqb (lower pose_gender) (lower requested)
      || String.eqb (lower pose_gender) "all").

End Filter.


(** ** The recommender object *)

(** The two external libraries, as far as the class uses them.
    [shape1 xs] is [xs.shape[1]] for the array [encode] returned (an
    [IndexError] when the array has no second axis); [IndexFlatL2 d] is the
    constructor; [add ix xs] is [ix.add(xs)], returning the index as the call
    leaves it; [search ix xs k] returns the matrices [(distances, indices)],
    one row per query vector.  [l2_sqr] is the distance an [IndexFlatL2]
    reports; the code never calls it, the index does.  [lt] is the comparison
    [dist < similarity_threshold] and [default_threshold] the default value
    [0.6] of that argument. *)
Class Backend : Type := {
  Model : Type;
  Vec : Type;
  Index : Type;
  Dist : Type;
  SentenceTransformer : string → result Model;
  encode : Model → list string → list Vec;
  shape1 : list Vec → result nat;
  IndexFlatL2 : nat → result Index;
  add : Index → list Vec → result Index;
  search : Index → list Vec → nat → list (list Dist) * list (list Z);
  l2_sqr : Vec → Vec → Dist;
  lt : Dist → Dist → bool;
  default_threshold : Dist
}.

(** What the class relies on: [encode] returns one vector per text; a
    fresh flat index of the vectors' dimension accepts them; and a search in
    the index so filled, for as many neighbours as it holds vectors, returns
    every stored vector once, each with its position and its distance to the
    query, in some order (FAISS sorts by distance; the order plays no part
    below). *)
Class BackendLaws `{Backend} : Prop := {
  encode_length : ∀ m texts, length (encode m texts) = length texts;
  add_returns : ∀ vs d ix0,
    shape1 vs = Ok d → IndexFlatL2 d = Ok ix0 → ∃ ix, add ix0 vs = Ok ix;
  search_all : ∀ vs d ix0 ix q,
    shape1 vs = Ok d → IndexFlatL2 d = Ok ix0 → add ix0 vs = Ok ix →
    ∃ hits : list (nat * Vec),
      hits ≡ₚ zip (seq 0 (length vs)) vs ∧
      search ix [q] (length vs)
      = ([(λ h, l2_sqr q h.2) <$> hits], [(λ h, Z.of_nat h.1) <$> hits])
}.

Module Recommender.
Section WithBackend.
Context `{SetOrder} `{Backend}.

(** The calls made to the external libraries, in order.  Not a field of
    the Python object: a record of what a run has paid for.  The flag says
    whether the call returned. *)
Inductive call : Type :=
  | CallSentenceTransformer (name : string) (ok : bool)
  | CallEncode (texts : list string)
  | CallIndexFlatL2 (d : nat) (ok : bool)
  | CallAdd (rows : nat) (ok : bool)
  | CallSearch (k : nat).

(** The attributes of [self] the methods below read or write. *)
Record recommender : Type := Self {
  asanas : list Asana;
  asana_map : gmap string (list Asana);
  health_benefits : list string;
  model : option Model;
  index : option Index;
  calls : list call
}.

(** A method body: it reads and writes [self] and returns or raises; what
    it wrote before raising stays written. *)
Definition M (A : Type) : Type := recommender → result A * recommender.

#[export] Instance M_ret : MRet M := λ A a self, (Ok a, self).
#[export] Instance M_bind : MBind M := λ A B k m self,
  match m self with
  | (Ok a, self') => k a self'
  | (Raise e, self') => (Raise e, self')
  end.

Definition lift {A : Type} (r : result A) : M A := λ self, (r, self).
Definition attr {A : Type} (f : recommender → A) : M A := λ self, (Ok (f self), self).
(** Assignments to [self.model] and [self.index], and one more call on
    the record. *)
Definition with_model (m : option Model) (self : recommender) : recommender :=
  Self (asanas self) (asana_map self) (health_benefits self) m (index self) (calls self).
Definition with_index (ix : option Index) (self : recommender) : recommender :=
  Self (asanas self) (asana_map self) (health_benefits self) (model self) ix (calls self).
Definition with_call (c : call) (self : recommender) : recommender :=
  Self (asanas self) (asana_map self) (health_benefits self) (model self) (index self)
       (calls self ++ [c]).

Definition set_model (m : option Model) : M unit := λ self, (Ok (), with_model m self).
Definition set_index (ix : option Index) : M unit := λ self, (Ok (), with_index ix self).
Definition log (c : call) : M unit := λ self, (Ok (), with_call c self).

Definition returned {A : Type} (r : result A) : bool :=
  match r with Ok _ => true | Raise _ => false end.

(** [self.model.encode] and [self.index.search] on an attribute that is
    still [None]. *)
Definition deref {A : Type} (o : option A) : result A :=
  match o with
  | Some a => Ok a
  | None => Raise AttributeError
  end.

(** Lines 16-34.  [catalog] is what [collection.find] returned. *)
Definition __init__ (catalog : list Asana) : recommender :=
  let built := Catalog.build catalog in
  {| asanas := catalog;
     asana_map := built.1;
     health_benefits := list_of_set built.2;
     model := None;
     index := None;
     calls := [] |}.

Definition model_name : string := "jashwanthakula26/yoga-asana-model".

(** Lines 36-40. *)
Definition load_model : M unit :=
  m ← attr model;
  match m with
  | None =>
      let loaded := SentenceTransformer model_name in
      log (CallSentenceTransformer model_name (returned loaded));;
      m' ← lift loaded;
      set_model (Some m')
  | Some _ => mret ()
  end.

(** Lines 42-48. *)
Definition build_faiss_index : M unit :=
  ix ← attr index;
  match ix with
  | None =>
      load_model;;
      m ← attr model;
      m ← lift (deref m);
      labels ← attr health_benefits;
      log (CallEncode labels);;
      let embeddings := encode m labels in
      d ← lift (shape1 embeddings);
      let made := IndexFlatL2 d in
      log (CallIndexFlatL2 d (returned made));;
      ix0 ← lift made;
      set_index (Some ix0);;
      let added := add ix0 embeddings in
      log (CallAdd (length embeddings) (returned added));;
      ix1 ← lift added;
      set_index (Some ix1)
  | Some _ => mret ()
  end.

(** The part of [build_faiss_index] after the model is there (lines
    46-48), from the state [self1] that [load_model] left. *)
Definition build_from (m : Model) (self1 : recommender) : result () * recommender :=
  let embeddings := encode m (health_benefits self1) in
  let self2 := with_call (CallEncode (health_benefits self1)) self1 in
  match shape1 embeddings with
  | Raise e => (Raise e, self2)
  | Ok d =>
      match IndexFlatL2 d with
      | Raise e => (Raise e, with_call (CallIndexFlatL2 d false) self2)
      | Ok ix0 =>
          let self3 := with_index (Some ix0) (with_call (CallIndexFlatL2 d true) self2) in
          match add ix0 embeddings with
          | Raise e => (Raise e, with_call (CallAdd (length embeddings) false) self3)
          | Ok ix1 =>
              (Ok (), with_index (Some ix1)
                        (with_call (CallAdd (length embeddings) true) self3))
          end
      end
  end.

(** Line 56: the comprehension over [zip(distances[0], indices[0])]. *)
Fixpoint select_benefits (labels : list string) (threshold : Dist)
    (pairs : list (Dist * Z)) : result (list string) :=
  match pairs with
  | [] => Ok []
  | (dist, idx) :: rest =>
      if lt dist threshold then
        label ← py_index labels idx;
        more ← select_benefits labels threshold rest;
        Ok (label :: more)
      else select_benefits labels threshold rest
  end.

(** Lines 50-56. *)
Definition find_all_matching_benefits (user_input : string)
    (similarity_threshold : Dist) : M (list string) :=
  build_faiss_index;;
  m ← attr model;
  m ← lift (deref m);
  log (CallEncode [user_input]);;
  let input_embedding := encode m [user_input] in
  ix ← attr index;
  ix ← lift (deref ix);
  labels ← attr health_benefits;
  log (CallSearch (length labels));;
  let '(distances, indices) := search ix input_embedding (length labels) in
  d0 ← lift (py_index distances 0);
  i0 ← lift (py_index indices 0);
  lift (select_benefits labels similarity_threshold (zip d0 i0)).

(** Lines 58-76. *)
Definition recommend_asanas (user_input : string) (age gender : pyval)
  : M (list Asana) :=
  matching_benefits ← find_all_matching_benefits user_input default_threshold;
  asana_map ← attr asana_map;
  lift (Filter.recommend_loop asana_map matching_benefits age gender).

(** The index held is a fresh flat index to which the embeddings of the
    vocabulary, made with the model held, were added. *)
Definition consistent (self : recommender) : Prop :=
  ∀ ix, index self = Some ix →
    ∃ m d ix0,
      model self = Some m
      ∧ shape1 (encode m (health_benefits self)) = Ok d
      ∧ IndexFlatL2 d = Ok ix0
      ∧ add ix0 (encode m (health_benefits self)) = Ok ix.

(** What a client of the object can do with it, and the state it leaves. *)
Inductive op : Type :=
  | OpLoadModel
  | OpBuildIndex
  | OpFind (user_input : string) (threshold : Dist)
  | OpRecommend (user_input : string) (age gender : pyval).

Definition step (self : recommender) (o : op) : recommender :=
  match o with
  | OpLoadModel => (load_model self).2
  | OpBuildIndex => (build_faiss_index self).2
  | OpFind q thr => (find_all_matching_benefits q thr self).2
  | OpRecommend q age gender => (recommend_asanas q age gender self).2
  end.

(** The object after [__init__] and any sequence of calls. *)
Definition after (ops : list op) (catalog : list Asana) : recommender :=
  fold_left step ops (__init__ catalog).

(** How many times a model was loaded, and an index built. *)
Definition is_load (c : call) : bool :=
  match c with CallSentenceTransformer _ true => true | _ => false end.
Definition is_build (c : call) : bool :=
  match c with CallIndexFlatL2 _ true => true | _ => false end.
Definition loads (cs : list call) : nat := length (List.filter is_load cs).
Definition builds (cs : list call) : nat := length (List.filter is_build cs).

Definition held {A : Type} (o : option A) : nat :=
  match o with Some _ => 1%nat | None => 0%nat end.

(** The catalog structures are those [__init__] made; an object that
    holds an index holds a model; and the record of calls shows one load
    per model held and one index constructed per index held. *)
Record invariant (catalog : list Asana) (self : recommender) : Prop := {
  inv_asanas : asanas self = catalog;
  inv_asana_map : asana_map self = (Catalog.build catalog).1;
  inv_health_benefits : health_benefits self = list_of_set (Catalog.build catalog).2;
  inv_model : is_Some (index self) → is_Some (model self);
  inv_loads : loads (calls self) = held (model self);
  inv_builds : builds (calls self) = held (index self)
}.

(** The methods never touch the catalog structures. *)
Definition same_catalog (self self' : recommender) : Prop :=
  asanas self' = asanas self
  ∧ asana_map self' = asana_map self
  ∧ health_benefits self' = health_benefits self.

(** The labels whose embedding lies within [thr] of the query [qv], in
    vocabulary order. *)
Definition matches_of (labels : list string) (vs : list Vec) (qv : Vec) (thr : Dist)
  : list string :=
  (filter (λ lv, lt (l2_sqr qv lv.2) thr) (zip labels vs)).*1.

End WithBackend.
End Recommender.

(** ** A small backend to run the methods on

    Texts are embedded in one dimension, by their length; distances are
    counted in tenths, so that the default threshold [0.6] is [6]; the index
    keeps the vectors and a search sorts them by distance to the query.
    Building an index over no vector at all raises, as
    [embeddings.shape[1]] does on an empty array. *)

Module Toy.

Definition embed (s : string) : Z := Z.of_nat (String.length s).

Definition dist (q v : Z) : Z := 10 * ((q - v) * (q - v)).

Definition nearer (q : Z) (h1 h2 : nat * Z) : Prop := dist q h1.2 ≤ dist q h2.2.

#[export] Instance nearer_dec (q : Z) : RelDecision (nearer q) :=
  λ h1 h2, Z_le_dec (dist q h1.2) (dist q h2.2).

Definition search_row (ix : list Z) (k : nat) (q : Z) : list (nat * Z) :=
  take k (merge_sort (nearer q) (zip (seq 0 (length ix)) ix)).

#[export] Instance backend : Backend := {|
  Model := unit;
  Vec := Z;
  Index := list Z;
  Dist := Z;
  SentenceTransformer := λ _, Ok ();
  encode := λ _ texts, embed <$> texts;
  shape1 := λ vs, match vs with [] => Raise IndexError | _ :: _ => Ok 1%nat end;
  IndexFlatL2 := λ _, Ok [];
  add := λ ix vs, Ok (ix ++ vs);
  search := λ ix qs k,
    ((λ q, (λ h, dist q h.2) <$> search_row ix k q) <$> qs,
     (λ q, (λ h, Z.of_nat h.1) <$> search_row ix k q) <$> qs);
  l2_sqr := dist;
  lt := Z.ltb;
  default_threshold := 6
|}.

#[export] Instance set_order : SetOrder := elements.

End Toy.

(** ** A small catalog *)

Definition childs_pose : Asana :=
  {| Doc._id := 1%N; Doc.asana := Some "Child's Pose";
     Doc.age := Some (PyInt 0); Doc.gender := Some (PyStr "all");
     Doc.health_benefits := Some ["back pain"];
     Doc.pose_direction := Some []; Doc.contraindications := Some [];
     Doc.image_url := None |}.

Definition warrior : Asana :=
  {| Doc._id := 2%N; Doc.asana := Some "Warrior";
     Doc.age := Some (PyStr "All"); Doc.gender := Some (PyStr "Female");
     Doc.health_benefits := Some ["stress relief"; "back pain"];
     Doc.pose_direction := None; Doc.contraindications := None;
     Doc.image_url := None |}.

Definition cobra : Asana :=
  {| Doc._id := 3%N; Doc.asana := Some "Cobra";
     Doc.age := Some (PyInt 12); Doc.gender := None;
     Doc.health_benefits := Some ["stress relief"];
     Doc.pose_direction := None; Doc.contraindications := None;
     Doc.image_url := None |}.

Definition small_catalog : list Asana := [childs_pose; warrior; cobra].

(** A document whose age field is [null]. *)
Definition tree : Asana :=
  {| Doc._id := 4%N; Doc.asana := Some "Tree";
     Doc.age := Some PyNone; Doc.gender := Some (PyStr "male");
     Doc.health_benefits := Some ["balance"];
     Doc.pose_direction := None; Doc.contraindications := None;
     Doc.image_url := None |}.



(** ** The report, the mail and the routes

    [fetch_image], [generate_pdf_in_memory], [add_page_border] and
    [send_email] of [yoga_recommender.py] (lines 78-160), and the routes of
    [app.py].  What lies outside the program (the network, the ReportLab
    constructors and builder, the SMTP session, the quotes collection,
    [random.sample], the templates) enters as the operations of the class
    [Outside]; those that depend on the moment they are called take and
    return a [World].  An exception of the outside is an [Exception], so
    [except Exception] catches it. *)

Module Report.

(** The three entries of [getSampleStyleSheet()] the report uses. *)
Inductive style : Type := Title | Heading3 | BodyText.

(** A flowable, as its constructor was called. *)
Inductive element (Bytes : Type) : Type :=
  | EParagraph (text : string) (st : style)
  | ESpacer (width height : Z)
  | EImage (stream : Bytes) (width height : Z)
  | EPageBreak.
Arguments EParagraph {Bytes} text st.
Arguments ESpacer {Bytes} width height.
Arguments EImage {Bytes} stream width height.
Arguments EPageBreak {Bytes}.

(** The calls [add_page_border] makes on the canvas. *)
Inductive canvas_op : Type :=
  | SetStrokeColor (color : string)
  | SetLineWidth (width : Z)
  | Rect (x y width height : Z).

(** [reportlab.lib.pagesizes.letter], in points. *)
Definition letter : Z * Z := (612, 792).

(** Lines 129-135. *)
Definition add_page_border : list canvas_op :=
  let margin := 20 in
  let '(width, height) := letter in
  [SetStrokeColor "black"; SetLineWidth 2;
   Rect margin margin (width - 2 * margin) (height - 2 * margin)].

(** The message [send_email] assembles (lines 142-151): its three headers
    and its one part. *)
Record email (Pdf : Type) : Type := Email {
  From : string;
  To : string;
  Subject : string;
  content_type : string;
  content_disposition : string;
  payload : Pdf
}.
Arguments Email {Pdf}.
Arguments From {Pdf}.
Arguments To {Pdf}.
Arguments Subject {Pdf}.
Arguments content_type {Pdf}.
Arguments content_disposition {Pdf}.
Arguments payload {Pdf}.

End Report.

(** The outside of the program.  [requests_get url] is
    [requests.get(url, stream=True)]: the status code and the content, whose
    reading may raise in its turn.  [parse_paragraph] and [open_image] are
    what the constructors [Paragraph] and [Image] do with their argument
    before they return.  [doc_build] is [SimpleDocTemplate(buffer,
    pagesize).build(elements, onFirstPage, onLaterPages)] followed by
    [seek(0)].  [smtp_session msg] is the whole [with smtplib.SMTP(...)]
    block of lines 154-157: connection, [starttls], [login] and [sendmail] of
    [msg.as_string()].  [find_one_quotes] is
    [quotes_collection.find_one({}, {'_id': 0})]: no document, a document
    without the key ['quotes'], or the list under that key.
    [recommend_asanas_None] is [recommend_asanas(None, age, gender)], the
    call the route makes when the form has no [health_issue]: what the model
    does with [None] is the library's to say. *)
Class Outside `{SetOrder} `{Backend} : Type := {
  World : Type;
  Bytes : Type;
  Pdf : Type;
  requests_get : string → World → result (Z * result Bytes) * World;
  parse_paragraph : string → Report.style → result ();
  open_image : Bytes → result ();
  doc_build : Z * Z → list (Report.element Bytes) →
              list Report.canvas_op → list Report.canvas_op → result Pdf;
  smtp_session : Report.email Pdf → World → result () * World;
  find_one_quotes : World → result (option (option (list string))) * World;
  random_sample : list string → nat → World → result (list string) * World;
  recommend_asanas_None : pyval → pyval → Recommender.M (list Asana)
}.

(** [random.sample(population, k)] for [k] within the population: [k]
    elements, taken at distinct positions. *)
Class SampleLaws `{Outside} : Prop :=
  sample_within : ∀ (l : list string) (k : nat) (w : World),
    (k ≤ length l)%nat →
    ∃ s, (random_sample l k w).1 = Ok s ∧ length s = k ∧ s ⊆+ l.

Module App.
Import Report.
Section WithOutside.
Context `{SetOrder} `{Backend} `{!Outside}.

(** What the program did to the outside, in order: the URLs it requested
    (and whether a picture came back), the lists of elements it handed to
    [doc.build], the mails it handed to the SMTP session (and whether the
    session returned).  A record kept beside the [World], not a variable of
    the program. *)
Inductive event : Type :=
  | Fetch (url : string) (got : bool)
  | Build (elements : list (element Bytes))
  | Mail (msg : email Pdf) (ok : bool).

Record outside : Type := Out {
  world : World;
  events : list event
}.

(** Code that acts on the outside and returns or raises. *)
Definition R (A : Type) : Type := outside → result A * outside.

#[export] Instance R_ret : MRet R := λ A a o, (Ok a, o).
#[export] Instance R_bind : MBind R := λ A B k m o,
  match m o with
  | (Ok a, o') => k a o'
  | (Raise e, o') => (Raise e, o')
  end.

Definition lift_result {A : Type} (r : result A) : R A := λ o, (r, o).
Definition in_world {A : Type} (f : World → result A * World) : R A := λ o,
  let '(r, w) := f (world o) in (r, Out w (events o)).
Definition emit (e : event) : R () := λ o, (Ok (), Out (world o) (events o ++ [e])).

(** [try: body except Exception as e: handler] *)
Definition try_except {A : Type} (body : R A) (handler : exn → R A) : R A := λ o,
  match body o with
  | (Ok a, o') => (Ok a, o')
  | (Raise e, o') => handler e o'
  end.

(** [for x in xs: acc = step acc x] *)
Fixpoint for_each {A S : Type} (step : S → A → R S) (xs : list A) (s : S) : R S :=
  match xs with
  | [] => mret s
  | x :: xs' => s' ← step s x; for_each step xs' s'
  end.

(** Truth of a [str]: it is not empty. *)
Definition truthy (s : string) : bool :=
  match s with EmptyString => false | String _ _ => true end.

(** Lines 78-87. *)
Definition fetch_image (url : string) : R (option Bytes) :=
  got ← try_except
           (response ← in_world (requests_get url);
            if response.1 =? 200 then
              content ← lift_result response.2;
              mret (Some content)
            else mret None)
           (λ _, mret None);
  emit (Fetch url (bool_decide (is_Some got)));;
  mret got.

(** The constructors that read their argument. *)
Definition Paragraph (text : string) (st : style) : R (element Bytes) :=
  lift_result (parse_paragraph text st);; mret (EParagraph text st).
Definition Image (stream : Bytes) (width height : Z) : R (element Bytes) :=
  lift_result (open_image stream);; mret (EImage stream width height).

(** [f"• {item}"] *)
Definition bullet (item : string) : string := ("• " ++ item)%string.

(** Lines 112-113 and 118-119: one body paragraph per item. *)
Definition append_bullets (elements : list (element Bytes)) (items : list string)
  : R (list (element Bytes)) :=
  for_each (λ elements item,
              p ← Paragraph (bullet item) BodyText; mret (elements ++ [p]))
           items elements.

(** The body of the loop of lines 96-122. *)
Definition append_section (elements : list (element Bytes)) (asana : Asana)
  : R (list (element Bytes)) :=
  title ← Paragraph ("<b>" ++ default "Unknown Asana" (Doc.asana asana) ++ "</b>")%string
                    Title;
  let elements := elements ++ [title] in
  let elements := elements ++ [ESpacer 1 10] in
  let image_url := default ""%string (Doc.image_url asana) in
  elements ←
    (if truthy image_url then
       image_stream ← fetch_image image_url;
       match image_stream with
       | Some stream =>
           img ← Image stream 250 150;
           mret ((elements ++ [img]) ++ [ESpacer 1 10])
       | None => mret elements
       end
     else mret elements);
  steps ← Paragraph "<b>Steps to Perform:</b>" Heading3;
  let elements := elements ++ [steps] in
  elements ← append_bullets elements (default [] (Doc.pose_direction asana));
  let elements := elements ++ [ESpacer 1 10] in
  contra ← Paragraph "<b>Contraindications:</b>" Heading3;
  let elements := elements ++ [contra] in
  elements ← append_bullets elements (default [] (Doc.contraindications asana));
  mret (elements ++ [EPageBreak]).

(** Lines 89-127. *)
Definition generate_pdf_in_memory (recommendations : list Asana) : R Pdf :=
  elements ← for_each append_section recommendations [];
  emit (Build elements);;
  lift_result (doc_build letter elements add_page_border add_page_border).

Definition sender_email : string := "jahnaviproject7@gmail.com".

(** Lines 137-160. *)
Definition send_email (user_email : string) (pdf_stream : Pdf) : R () :=
  let msg := Email sender_email user_email "Your Recommended Yoga Asanas"
                   "application/octet-stream"
                   "attachment; filename=recommended_asanas.pdf" pdf_stream in
  try_except
    (λ o, let '(r, w) := smtp_session msg (world o) in
          (r, Out w (events o ++ [Mail msg (Recommender.returned r)])))
    (λ _, mret ()).

(** The message [send_email] assembles. *)
Definition message (user_email : string) (pdf_stream : Pdf) : email Pdf :=
  Email sender_email user_email "Your Recommended Yoga Asanas"
        "application/octet-stream" "attachment; filename=recommended_asanas.pdf"
        pdf_stream.

(** What a route returns: [jsonify(...)] or [render_template(...)]. *)
Inductive response : Type :=
  | Jsonify (success : bool) (message : string)
  | RenderTemplate (name : string) (quotes : list string).

(** A route acts on the recommender object and on the outside. *)
Definition route (A : Type) : Type :=
  Recommender.recommender * outside → result A * (Recommender.recommender * outside).

#[export] Instance route_ret : MRet route := λ A a s, (Ok a, s).
#[export] Instance route_bind : MBind route := λ A B k m s,
  match m s with
  | (Ok a, s') => k a s'
  | (Raise e, s') => (Raise e, s')
  end.

Definition on_recommender {A : Type} (m : Recommender.M A) : route A := λ s,
  let '(r, self) := m s.1 in (r, (self, s.2)).
Definition on_outside {A : Type} (m : R A) : route A := λ s,
  let '(r, o) := m s.2 in (r, (s.1, o)).
Definition route_try {A : Type} (body : route A) (handler : exn → route A) : route A :=
  λ s, match body s with
       | (Ok a, s') => (Ok a, s')
       | (Raise e, s') => handler e s'
       end.

(** [request.form[key]]: a missing key raises (Flask answers 400). *)
Definition form_item (form : gmap string string) (key : string) : route string :=
  λ s, match form !! key with
       | Some v => (Ok v, s)
       | None => (Raise KeyError, s)
       end.

(** [recommender.recommend_asanas(health_issue, age, gender)], with
    [health_issue = request.form.get('health_issue')]. *)
Definition recommend (health_issue : option string) (age gender : string)
  : Recommender.M (list Asana) :=
  match health_issue with
  | Some user_input => Recommender.recommend_asanas user_input (PyStr age) (PyStr gender)
  | None => recommend_asanas_None (PyStr age) (PyStr gender)
  end.

(** [get_recommendations] ([app.py], lines 61-84). *)
Definition get_recommendations (form : gmap string string) : route response :=
  user_email ← form_item form "email";
  age ← form_item form "age";
  gender ← form_item form "gender";
  let health_issue := form !! "health_issue" in
  recommendations ← on_recommender (recommend health_issue age gender);
  match recommendations with
  | _ :: _ =>
      route_try
        (pdf_stream ← on_outside (generate_pdf_in_memory recommendations);
         on_outside (send_email user_email pdf_stream);;
         mret (Jsonify true "Recommendations sent successfully!"))
        (λ _, mret (Jsonify false "Error sending recommendations."))
  | [] => mret (Jsonify false "No suitable yoga asanas found.")
  end.

(** [index] ([app.py], lines 30-50). *)
Definition index : R response :=
  random_quotes ←
    try_except
      (quotes_document ← in_world find_one_quotes;
       match quotes_document with
       | Some (Some all_quotes) =>
           in_world (random_sample all_quotes (3 `min` length all_quotes))
       | Some None | None => mret (replicate 3 "No quotes available."%string)
       end)
      (λ _, mret (replicate 3 "Error loading quotes."%string));
  mret (RenderTemplate "index.html" random_quotes).

(** [recommend] ([app.py], lines 53-58). *)
Definition recommend_page : response := RenderTemplate "recommend.html" [].

(** *** The report a list of poses should give *)

(** The section of one pose: [image] is the stream fetched for it, if any. *)
Definition section (image : option Bytes) (asana : Asana) : list (element Bytes) :=
  [EParagraph ("<b>" ++ default "Unknown Asana" (Doc.asana asana) ++ "</b>")%string Title;
   ESpacer 1 10]
  ++ match image with
     | Some stream => [EImage stream 250 150; ESpacer 1 10]
     | None => []
     end
  ++ [EParagraph "<b>Steps to Perform:</b>" Heading3]
  ++ ((λ step, EParagraph (bullet step) BodyText) <$> default [] (Doc.pose_direction asana))
  ++ [ESpacer 1 10; EParagraph "<b>Contraindications:</b>" Heading3]
  ++ ((λ c, EParagraph (bullet c) BodyText) <$> default [] (Doc.contraindications asana))
  ++ [EPageBreak].

(** The request one pose causes: none without an image URL. *)
Definition fetch_of (image : option Bytes) (asana : Asana) : list event :=
  let image_url := default ""%string (Doc.image_url asana) in
  if truthy image_url then [Fetch image_url (bool_decide (is_Some image))] else [].

(** The URLs requested, and the picture URLs of a list of poses. *)
Definition fetched_urls (es : list event) : list string :=
  omap (λ e, match e with Fetch url _ => Some url | _ => None end) es.
Definition picture_urls (recommendations : list Asana) : list string :=
  omap (λ asana, let image_url := default ""%string (Doc.image_url asana) in
                 if truthy image_url then Some image_url else None)
       recommendations.

Definition is_page_break (e : element Bytes) : bool :=
  match e with EPageBreak => true | _ => false end.

Definition is_mail (e : event) : bool :=
  match e with Mail _ _ => true | _ => false end.

(** A computation that hands no mail to the SMTP session, however it
    ends. *)
Definition quiet {A : Type} (m : R A) : Prop :=
  ∀ o, List.filter is_mail (events (m o).2) = List.filter is_mail (events o).

End WithOutside.
End App.

(** ** A small outside

    The world is the number of requests answered so far; one URL answers
    200 with a picture, one answers 404, any other raises; every paragraph
    and picture is accepted; a document of at most twenty elements is built
    (it is the number of its elements), a longer one is refused; the SMTP
    session fails; the quotes collection holds two quotes, and a sample is
    the start of the list. *)

Module ToyOutside.
Import Report Toy.

Definition answer (url : string) (w : nat) : result (Z * result string) * nat :=
  (if String.eqb url "http://img/ok" then Ok (200, Ok "png")
   else if String.eqb url "http://img/gone" then Ok (404, Ok "")
   else Raise (ExternalError "ConnectionError"),
   S w).

#[export] Instance toy_outside : Outside := {|
  World := nat;
  Bytes := string;
  Pdf := nat;
  requests_get := answer;
  parse_paragraph := λ _ _, Ok ();
  open_image := λ _, Ok ();
  doc_build := λ _ elements _ _,
    if (length elements <=? 20)%nat then Ok (length elements)
    else Raise (ExternalError "LayoutError");
  smtp_session := λ _ w, (Raise (ExternalError "SMTPException"), w);
  find_one_quotes := λ w, (Ok (Some (Some ["Breathe."; "Be here."])), w);
  random_sample := λ l k w, (Ok (take k l), w);
  recommend_asanas_None := λ _ _ self, (Raise TypeError, self)
|}.

(** Two poses with a picture: one that is there, one that is gone. *)
Definition bridge : Asana :=
  {| Doc._id := 5%N; Doc.asana := Some "Bridge";
     Doc.age := Some (PyInt 10); Doc.gender := Some (PyStr "all");
     Doc.health_benefits := Some ["back pain"];
     Doc.pose_direction := Some ["Lie down."; "Lift the hips."];
     Doc.contraindications := Some ["Neck injury"];
     Doc.image_url := Some "http://img/ok" |}.

Definition plank : Asana :=
  {| Doc._id := 6%N; Doc.asana := None;
     Doc.age := Some (PyInt 10); Doc.gender := Some (PyStr "all");
     Doc.health_benefits := Some ["back pain"];
     Doc.pose_direction := Some ["Hold."];
     Doc.contraindications := None;
     Doc.image_url := Some "http://img/gone" |}.

Definition two_pictures : list Asana := [bridge; plank].
Definition picture_catalog : list Asana := [bridge; plank; childs_pose].

(** The outside before anything happened. *)
Definition fresh : App.outside := App.Out (0%nat : World) [].

Definition form_of (email age gender health_issue : string) : gmap string string :=
  {[ "email" := email; "age" := age; "gender" := gender;
     "health_issue" := health_issue ]}.

End ToyOutside.

(** * Theorems *)

(** ** Python primitives on examples *)

Example int_of_str_30 : int_of_str " 30 " = Some 30.
Proof. reflexivity. Qed.
Example int_of_str_neg : int_of_str "-1_000" = Some (-1000).
Proof. reflexivity. Qed.
Example int_of_str_All : int_of_str "All" = None.
Proof. reflexivity. Qed.
Example int_of_str_dunder : int_of_str "1__0" = None.
Proof. reflexivity. Qed.
Example int_of_str_trailing_us : int_of_str "10_" = None.
Proof. reflexivity. Qed.
Example int_of_str_frac : int_of_str "12.5" = None.
Proof. reflexivity. Qed.
Example int_of_str_empty : int_of_str "" = None.
Proof. reflexivity. Qed.
Example lower_Female : lower "Female" = "female".
Proof. reflexivity. Qed.

Example build_small_back_pain :
  Catalog.get (Catalog.build small_catalog).1 "back pain" = [childs_pose; warrior].
Proof. vm_compute. reflexivity. Qed.

Example recommend_small_female :
  Filter.recommend_loop (Catalog.build small_catalog).1 ["back pain"]
    (PyStr "30") (PyStr "female") = Ok [childs_pose; warrior].
Proof. vm_compute. reflexivity. Qed.

(** ** Loops that may raise *)

Lemma foldM_app {A S : Type} (step : S → A → result S) (l1 l2 : list A) (s : S) :
  foldM step (l1 ++ l2) s = (s' ← foldM step l1 s; foldM step l2 s').
Proof.
  revert s. induction l1 as [|x l1 IH]; intros s; simpl; [done|].
  destruct (step s x) as [s'|e]; simpl; [apply IH | done].
Qed.

(** Two nested [for] loops are one loop over the concatenation. *)
Lemma foldM_nested {A B S : Type} (step : S → A → result S) (inner : B → list A)
    (bs : list B) (s : S) :
  foldM (λ s b, foldM step (inner b) s) bs s = foldM step (b ← bs; inner b) s.
Proof.
  revert s. induction bs as [|b bs IH]; intros s; simpl; [done|].
  rewrite foldM_app. destruct (foldM step (inner b) s) as [s'|e]; simpl; [apply IH | done].
Qed.

(** ** The recommendation loop, as a function on lists *)

Module FilterFacts.
Import Filter.

Lemma visit_unfold age gender st a :
  visit age gender st a =
  match condition a age gender with
  | Raise e => Raise e
  | Ok b =>
      Ok (if b && negb (bool_decide (Doc._id a ∈ st.1))
          then ({[Doc._id a]} ∪ st.1, st.2 ++ [a]) else st)
  end.
Proof.
  unfold visit. destruct (condition a age gender) as [[|]|e]; simpl; try done.
  case_decide; [rewrite bool_decide_eq_true_2 | rewrite bool_decide_eq_false_2]; done.
Qed.

Lemma foldM_visit age gender l seen rec :
  foldM (visit age gender) l (seen, rec) =
  match first_raise age gender l with
  | Some e => Raise e
  | None =>
      let kept := keep_new (condition_true age gender) seen l in
      Ok (list_to_set (Doc._id <$> kept) ∪ seen, rec ++ kept)
  end.
Proof.
  revert seen rec. induction l as [|a l IH]; intros seen rec; simpl.
  - f_equal. rewrite app_nil_r. f_equal. set_solver.
  - rewrite visit_unfold.
    destruct (condition a age gender) as [b|e] eqn:Ea; simpl; [|done].
    assert (condition_true age gender a = b) as -> by (unfold condition_true; by rewrite Ea).
    destruct (b && negb (bool_decide (Doc._id a ∈ seen))); simpl; rewrite IH;
      destruct (first_raise age gender l); try done; simpl.
    rewrite <- app_assoc. simpl. do 2 f_equal. set_solver.
Qed.

(** Lines 61-76 in one equation: the first exception of the condition if
    there is one, else the poses that pass it, first occurrence of each id. *)
Lemma recommend_loop_eq asana_map matching age gender :
  recommend_loop asana_map matching age gender =
  match first_raise age gender (visited asana_map matching) with
  | Some e => Raise e
  | None => Ok (keep_new (condition_true age gender) ∅ (visited asana_map matching))
  end.
Proof.
  unfold recommend_loop, visit_benefit.
  rewrite (foldM_nested (visit age gender) (Catalog.get asana_map)).
  rewrite foldM_visit. fold (visited asana_map matching).
  destruct (first_raise age gender (visited asana_map matching)); done.
Qed.

Lemma first_raise_None age gender l :
  first_raise age gender l = None ↔
  ∀ a, a ∈ l → ∃ b, condition a age gender = Ok b.
Proof.
  induction l as [|a l IH]; simpl.
  - split; [intros _ a Ha; inversion Ha | done].
  - destruct (condition a age gender) as [b|e] eqn:Ea.
    + rewrite IH. split.
      * intros Hl a' Ha'. apply elem_of_cons in Ha' as [->|Ha']; eauto.
      * intros Hl a' Ha'. apply Hl. by right.
    + split; [done|]. intros Hl. destruct (Hl a) as [b Hb]; [by left|congruence].
Qed.

Lemma first_raise_app age gender l1 l2 :
  first_raise age gender (l1 ++ l2) =
  match first_raise age gender l1 with
  | Some e => Some e
  | None => first_raise age gender l2
  end.
Proof.
  induction l1 as [|a l1 IH]; simpl; [done|].
  by destruct (condition a age gender).
Qed.

(** *** Facts about [keep_new] *)

Lemma keep_new_elem ok seen l a :
  a ∈ keep_new ok seen l → a ∈ l ∧ ok a = true ∧ Doc._id a ∉ seen.
Proof.
  revert seen. induction l as [|x l IH]; intros seen; simpl; [by inversion 1|].
  destruct (ok x) eqn:Ex; simpl; [case_bool_decide; simpl|].
  - intros Ha. destruct (IH _ Ha) as (?&?&?). split; [by right|done].
  - intros Ha. apply elem_of_cons in Ha as [->|Ha].
    + split; [by left|done].
    + destruct (IH _ Ha) as (?&?&?). split; [by right|]. split; [done|set_solver].
  - intros Ha. destruct (IH _ Ha) as (?&?&?). split; [by right|done].
Qed.

Lemma keep_new_ids ok seen l i :
  i ∈ (Doc._id <$> keep_new ok seen l) ↔
  (i ∉ seen) ∧ ∃ a, a ∈ l ∧ ok a = true ∧ Doc._id a = i.
Proof.
  revert seen. induction l as [|x l IH]; intros seen; simpl.
  - split; [by inversion 1|]. intros (_ & a & Ha & _). inversion Ha.
  - destruct (ok x) eqn:Ex; simpl; [case_bool_decide; simpl|].
    + rewrite IH. split.
      * intros (? & a & ? & ? & ?). split; [done|]. exists a. split; [by right|done].
      * intros (Hi & a & Ha & Hok & Hid). split; [done|].
        apply elem_of_cons in Ha as [->|Ha]; [congruence|eauto].
    + rewrite elem_of_cons, IH. split.
      * intros [->|(Hi & a & ? & ? & ?)].
        -- split; [done|]. exists x. split; [by left|done].
        -- split; [set_solver|]. exists a. split; [by right|done].
      * intros (Hi & a & Ha & Hok & Hid).
        destruct (decide (i = Doc._id x)) as [->|Hne]; [by left|right].
        split; [set_solver|]. apply elem_of_cons in Ha as [->|Ha]; [congruence|eauto].
    + rewrite IH. split.
      * intros (? & a & ? & ? & ?). split; [done|]. exists a. split; [by right|done].
      * intros (Hi & a & Ha & Hok & Hid). split; [done|].
        apply elem_of_cons in Ha as [->|Ha]; [congruence|eauto].
Qed.

Lemma keep_new_NoDup ok seen l : NoDup (Doc._id <$> keep_new ok seen l).
Proof.
  revert seen. induction l as [|x l IH]; intros seen; simpl; [constructor|].
  destruct (ok x && negb (bool_decide (Doc._id x ∈ seen))); simpl; [|apply IH].
  constructor; [|apply IH]. rewrite keep_new_ids. set_solver.
Qed.

Lemma keep_new_sublist ok seen l : keep_new ok seen l `sublist_of` l.
Proof.
  revert seen. induction l as [|x l IH]; intros seen; simpl; [constructor|].
  destruct (ok x && negb (bool_decide (Doc._id x ∈ seen))).
  - by apply sublist_skip.
  - by apply sublist_cons.
Qed.

Lemma keep_new_app ok seen l1 l2 :
  keep_new ok seen (l1 ++ l2) =
  keep_new ok seen l1
  ++ keep_new ok (list_to_set (Doc._id <$> keep_new ok seen l1) ∪ seen) l2.
Proof.
  revert seen. induction l1 as [|x l1 IH]; intros seen; simpl.
  - f_equal. set_solver.
  - destruct (ok x && negb (bool_decide (Doc._id x ∈ seen))); simpl; rewrite IH.
    + do 3 f_equal. set_solver.
    + done.
Qed.

(** Where ids identify poses, a pose that passes and has a new id is kept. *)
Lemma keep_new_keeps ok seen l a :
  (∀ x y, x ∈ l → y ∈ l → Doc._id x = Doc._id y → x = y) →
  a ∈ l → ok a = true → Doc._id a ∉ seen → a ∈ keep_new ok seen l.
Proof.
  intros Hinj Ha Hok Hnew.
  assert (Doc._id a ∈ (Doc._id <$> keep_new ok seen l)) as Hi.
  { apply keep_new_ids. eauto. }
  apply list_elem_of_fmap in Hi as (b & Hid & Hb).
  destruct (keep_new_elem _ _ _ _ Hb) as (Hbl & _ & _).
  by rewrite (Hinj a b Ha Hbl Hid).
Qed.

End FilterFacts.

(** ** The reverse index *)

Module CatalogFacts.
Import Catalog.

Lemma elem_of_get (m : gmap string (list Asana)) b a :
  a ∈ get m b ↔ ∃ l, m !! b = Some l ∧ a ∈ l.
Proof.
  unfold get. destruct (m !! b) as [l|]; simpl.
  - split; [eauto|]. by intros (l' & [= <-] & ?).
  - split; [by inversion 1|]. by intros (? & ? & ?).
Qed.

Lemma get_add_benefit a acc b b' :
  get (add_benefit a acc b).1 b' =
  get acc.1 b' ++ (if decide (b = b') then [a] else []).
Proof.
  unfold add_benefit, get at 1. simpl. case_decide as Hb.
  - subst. by rewrite lookup_insert_eq.
  - rewrite lookup_insert_ne by done. by rewrite app_nil_r.
Qed.

Lemma labels_add_benefit a acc b : (add_benefit a acc b).2 = {[b]} ∪ acc.2.
Proof. done. Qed.

Lemma dom_add_benefit a acc b : dom (add_benefit a acc b).1 = {[b]} ∪ dom acc.1.
Proof. unfold add_benefit. simpl. by rewrite dom_insert_L. Qed.

(** The inner loop, for one pose. *)
Lemma add_asana_spec a acc :
  (∀ b, get (add_asana acc a).1 b =
        get acc.1 b ++ (_ ← filter (λ b', b' = b) (benefits_of a); [a]))
  ∧ (add_asana acc a).2 = list_to_set (benefits_of a) ∪ acc.2
  ∧ dom (add_asana acc a).1 = list_to_set (benefits_of a) ∪ dom acc.1.
Proof.
  unfold add_asana. generalize (benefits_of a) as bs. intros bs. revert acc.
  induction bs as [|b0 bs IH]; intros acc; simpl.
  - split; [intros b; by rewrite app_nil_r | split; set_solver].
  - destruct (IH (add_benefit a acc b0)) as (Hget & Hlab & Hdom).
    split; [|split].
    + intros b. rewrite Hget, get_add_benefit, <- app_assoc. f_equal.
      rewrite filter_cons. repeat case_decide; subst; done.
    + rewrite Hlab, labels_add_benefit. set_solver.
    + rewrite Hdom, dom_add_benefit. set_solver.
Qed.

(** The outer loop, from any accumulator. *)
Lemma fold_add_asana_spec l acc :
  (∀ b, get (fold_left add_asana l acc).1 b = get acc.1 b ++ entries b l)
  ∧ (fold_left add_asana l acc).2 = list_to_set (a ← l; benefits_of a) ∪ acc.2
  ∧ dom (fold_left add_asana l acc).1 = list_to_set (a ← l; benefits_of a) ∪ dom acc.1.
Proof.
  revert acc. induction l as [|a l IH]; intros acc; simpl.
  - split; [intros b; by rewrite app_nil_r | split; set_solver].
  - destruct (IH (add_asana acc a)) as (Hget & Hlab & Hdom).
    destruct (add_asana_spec a acc) as (Hget1 & Hlab1 & Hdom1).
    split; [|split].
    + intros b. rewrite Hget, Hget1, <- app_assoc. done.
    + rewrite Hlab, Hlab1. set_solver.
    + rewrite Hdom, Hdom1. set_solver.
Qed.

(** The entry of a label after [__init__]'s loops. *)
Lemma get_build asanas b : get (build asanas).1 b = entries b asanas.
Proof.
  unfold build. destruct (fold_add_asana_spec asanas (∅, ∅)) as (Hget & _ & _).
  rewrite Hget. unfold get at 1. simpl. by rewrite lookup_empty.
Qed.

Lemma labels_build asanas :
  (build asanas).2 = list_to_set (a ← asanas; benefits_of a).
Proof.
  unfold build. destruct (fold_add_asana_spec asanas (∅, ∅)) as (_ & Hlab & _).
  rewrite Hlab. set_solver.
Qed.

(** The keys of the reverse index are the labels of the vocabulary. *)
Lemma dom_build asanas : dom (build asanas).1 = (build asanas).2.
Proof.
  rewrite labels_build. unfold build.
  destruct (fold_add_asana_spec asanas (∅, ∅)) as (_ & _ & Hdom).
  rewrite Hdom. set_solver.
Qed.

Lemma elem_of_entries b asanas a :
  a ∈ entries b asanas ↔ a ∈ asanas ∧ b ∈ benefits_of a.
Proof.
  unfold entries. rewrite list_elem_of_bind. split.
  - intros (a' & Hin & Ha'). apply list_elem_of_bind in Hin as (b' & Hb' & Hf).
    apply list_elem_of_singleton in Hb' as ->.
    apply list_elem_of_filter in Hf as [-> ?]. done.
  - intros [Ha Hb]. exists a. split; [|done].
    apply list_elem_of_bind. exists b. split; [by apply list_elem_of_singleton|].
    by apply list_elem_of_filter.
Qed.

(** The entry of a label lists poses of the catalog in catalog order. *)
Lemma entries_NoDup_sublist b asanas l :
  l `sublist_of` entries b asanas → NoDup l → l `sublist_of` asanas.
Proof.
  revert l. induction asanas as [|a asanas IH]; intros l Hsub Hnd.
  - apply sublist_nil_r in Hsub as ->. constructor.
  - unfold entries in Hsub. rewrite bind_cons in Hsub.
    apply sublist_app_r in Hsub as (l1 & l2 & -> & H1 & H2).
    apply NoDup_app in Hnd as (Hnd1 & _ & Hnd2).
    assert (l1 = [] ∨ l1 = [a]) as Hl1.
    { clear -H1 Hnd1.
      assert (∀ x, x ∈ l1 → x = a) as Hall.
      { intros x Hx. eapply elem_of_sublist in Hx; [|exact H1].
        apply list_elem_of_bind in Hx as (? & Hx & _).
        by apply list_elem_of_singleton in Hx. }
      destruct l1 as [|x [|y l1]]; [by left| |].
      - right. f_equal. apply Hall. by left.
      - exfalso. apply NoDup_cons in Hnd1 as [Hx _]. apply Hx.
        rewrite (Hall x), (Hall y); [by left|by right; left|by left]. }
    specialize (IH l2 H2 Hnd2).
    destruct Hl1 as [-> | ->]; simpl.
    + by apply sublist_cons.
    + by apply sublist_skip.
Qed.

End CatalogFacts.

(** ** The object state *)

Module RecommenderFacts.
Import Recommender.
Section WithBackend.
Context `{SetOrder} `{Backend}.

(** *** The methods, unfolded *)

Lemma load_model_eq self :
  load_model self =
  match model self with
  | Some _ => (Ok (), self)
  | None =>
      match SentenceTransformer model_name with
      | Ok m =>
          (Ok (), with_model (Some m)
                    (with_call (CallSentenceTransformer model_name true) self))
      | Raise e =>
          (Raise e, with_call (CallSentenceTransformer model_name false) self)
      end
  end.
Proof.
  unfold load_model, mbind, M_bind, attr. simpl.
  destruct (model self); [done|].
  unfold log, lift, set_model. simpl.
  destruct (SentenceTransformer model_name); done.
Qed.

Lemma build_faiss_index_eq self :
  build_faiss_index self =
  match index self with
  | Some _ => (Ok (), self)
  | None =>
      match load_model self with
      | (Raise e, self1) => (Raise e, self1)
      | (Ok _, self1) =>
          match model self1 with
          | None => (Raise AttributeError, self1)
          | Some m => build_from m self1
          end
      end
  end.
Proof.
  unfold build_faiss_index, build_from, mbind, M_bind, attr. simpl.
  destruct (index self); [done|].
  destruct (load_model self) as [[[]|e] self1]; [|done].
  unfold lift, deref, log, set_index. simpl.
  destruct (model self1) as [m|]; [|done]. simpl.
  destruct (shape1 (encode m (health_benefits self1))) as [d|e]; [|done]. simpl.
  destruct (IndexFlatL2 d) as [ix0|e]; [|done]. simpl.
  destruct (add ix0 (encode m (health_benefits self1))); done.
Qed.

Lemma find_all_matching_benefits_eq q thr self :
  find_all_matching_benefits q thr self =
  match build_faiss_index self with
  | (Raise e, self1) => (Raise e, self1)
  | (Ok _, self1) =>
      match model self1 with
      | None => (Raise AttributeError, self1)
      | Some m =>
          let self2 := with_call (CallEncode [q]) self1 in
          match index self1 with
          | None => (Raise AttributeError, self2)
          | Some ix =>
              let labels := health_benefits self1 in
              let found := search ix (encode m [q]) (length labels) in
              (d0 ← py_index found.1 0;
               i0 ← py_index found.2 0;
               select_benefits labels thr (zip d0 i0),
               with_call (CallSearch (length labels)) self2)
          end
      end
  end.
Proof.
  unfold find_all_matching_benefits, mbind at 1 2 3 4 5 6 7 8, M_bind, attr.
  destruct (build_faiss_index self) as [[[]|e] self1]; [|done].
  unfold lift, deref, log. simpl.
  destruct (model self1) as [m|]; [|done]. simpl.
  destruct (index self1) as [ix|]; [|done]. simpl.
  destruct (search ix (encode m [q]) (length (health_benefits self1))) as [ds idxs].
  unfold mbind at 1 2, M_bind. simpl.
  destruct (py_index ds 0) as [d0|e]; [|done]. simpl.
  destruct (py_index idxs 0) as [i0|e]; done.
Qed.

Lemma recommend_asanas_eq q age gender self :
  recommend_asanas q age gender self =
  match find_all_matching_benefits q default_threshold self with
  | (Ok matching, self') =>
      (Filter.recommend_loop (asana_map self') matching age gender, self')
  | (Raise e, self') => (Raise e, self')
  end.
Proof.
  unfold recommend_asanas, mbind at 1 2, M_bind, attr, lift.
  destruct (find_all_matching_benefits q default_threshold self) as [[?|?] ?]; done.
Qed.

(** *** What holds of the object at all times *)

Lemma loads_snoc cs c : loads (cs ++ [c]) = (loads cs + (if is_load c then 1 else 0))%nat.
Proof.
  unfold loads. rewrite List.filter_app, length_app. simpl. by destruct (is_load c).
Qed.

Lemma builds_snoc cs c : builds (cs ++ [c]) = (builds cs + (if is_build c then 1 else 0))%nat.
Proof.
  unfold builds. rewrite List.filter_app, length_app. simpl. by destruct (is_build c).
Qed.

Lemma invariant_init catalog : invariant catalog (__init__ catalog).
Proof. split; try done. by intros [? ?]. Qed.

(** A call that is neither a load nor a build changes nothing of it. *)
Lemma invariant_with_call catalog c self :
  is_load c = false → is_build c = false →
  invariant catalog self → invariant catalog (with_call c self).
Proof.
  intros Hl Hb [? ? ? Hc ? ?]. split; simpl; try done.
  - by rewrite loads_snoc, Hl, Nat.add_0_r.
  - by rewrite builds_snoc, Hb, Nat.add_0_r.
Qed.

(** Replacing the index held by another changes nothing of it. *)
Lemma invariant_with_index catalog ix self :
  is_Some (index self) →
  invariant catalog self → invariant catalog (with_index (Some ix) self).
Proof.
  intros [ix' Hix] [? ? ? Hm ? Hb]. split; simpl; try done.
  - intros _. apply Hm. eauto.
  - by rewrite Hb, Hix.
Qed.

Lemma load_model_index self : index (load_model self).2 = index self.
Proof.
  rewrite load_model_eq. destruct (model self); [done|].
  by destruct (SentenceTransformer model_name).
Qed.

Lemma invariant_load_model catalog self :
  invariant catalog self → invariant catalog (load_model self).2.
Proof.
  intros Hinv. rewrite load_model_eq.
  destruct (model self) as [m|] eqn:Em; [done|].
  destruct (SentenceTransformer model_name) as [m|e]; simpl;
    [|by apply invariant_with_call].
  destruct Hinv as [? ? ? Hm Hl Hb]. rewrite Em in Hl. simpl in Hl.
  assert (index self = None) as Ei.
  { destruct (index self) as [ix|] eqn:Ei; [|done].
    destruct Hm as [m' Hm]; [eauto|]. congruence. }
  rewrite Ei in Hb. simpl in Hb.
  split; simpl; try done.
  - rewrite loads_snoc, Hl. done.
  - rewrite builds_snoc, Hb, Ei. done.
Qed.

Lemma invariant_build_from catalog m self1 :
  model self1 = Some m → index self1 = None →
  invariant catalog self1 → invariant catalog (build_from m self1).2.
Proof.
  intros Em Ei Hinv. unfold build_from.
  assert (invariant catalog (with_call (CallEncode (health_benefits self1)) self1))
    as Hinv2 by by apply invariant_with_call.
  destruct (shape1 (encode m (health_benefits self1))) as [d|e]; [|done].
  destruct (IndexFlatL2 d) as [ix0|e]; [|by apply invariant_with_call].
  set (self2 := with_call (CallEncode (health_benefits self1)) self1) in *.
  assert (invariant catalog
            (with_index (Some ix0) (with_call (CallIndexFlatL2 d true) self2))) as Hinv3.
  { destruct Hinv as [? ? ? Hm Hl Hb]. rewrite Em in Hl. rewrite Ei in Hb.
    simpl in Hl, Hb. split; simpl; rewrite ?Em; try done.
    - rewrite !loads_snoc, Hl. done.
    - rewrite !builds_snoc, Hb. done. }
  destruct (add ix0 (encode m (health_benefits self1))) as [ix1|e]; simpl.
  - apply invariant_with_index; [simpl; eauto|]. by apply invariant_with_call.
  - by apply invariant_with_call.
Qed.

Lemma invariant_build_faiss_index catalog self :
  invariant catalog self → invariant catalog (build_faiss_index self).2.
Proof.
  intros Hinv. rewrite build_faiss_index_eq.
  destruct (index self) as [ix|] eqn:Ei; [done|].
  pose proof (load_model_index self) as Ei1. rewrite Ei in Ei1.
  apply invariant_load_model in Hinv.
  destruct (load_model self) as [[[]|e] self1]; simpl in *; [|done].
  destruct (model self1) as [m|] eqn:Em; [|done].
  by apply invariant_build_from.
Qed.

Lemma invariant_find_all catalog q thr self :
  invariant catalog self →
  invariant catalog (find_all_matching_benefits q thr self).2.
Proof.
  intros Hinv. rewrite find_all_matching_benefits_eq.
  apply invariant_build_faiss_index in Hinv.
  destruct (build_faiss_index self) as [[[]|e] self1]; simpl in *; [|done].
  destruct (model self1) as [m|] eqn:Em; [|done]. simpl.
  destruct (index self1) as [ix|] eqn:Ei; simpl.
  - by do 2 (apply invariant_with_call; [done..|]).
  - by apply invariant_with_call.
Qed.

Lemma invariant_recommend catalog q age gender self :
  invariant catalog self →
  invariant catalog (recommend_asanas q age gender self).2.
Proof.
  intros Hinv. rewrite recommend_asanas_eq.
  apply (invariant_find_all _ q default_threshold) in Hinv.
  destruct (find_all_matching_benefits q default_threshold self) as [[?|?] ?]; done.
Qed.

Lemma invariant_after catalog ops : invariant catalog (after ops catalog).
Proof.
  unfold after. generalize (invariant_init catalog).
  generalize (__init__ catalog) as self. induction ops as [|o ops IH]; intros self Hinv.
  - done.
  - simpl. apply IH. destruct o; simpl;
      auto using invariant_load_model, invariant_build_faiss_index,
                 invariant_find_all, invariant_recommend.
Qed.

Lemma load_model_frame self : same_catalog self (load_model self).2.
Proof.
  rewrite load_model_eq. destruct (model self); [done|].
  by destruct (SentenceTransformer model_name).
Qed.

Lemma build_from_frame m self1 : same_catalog self1 (build_from m self1).2.
Proof.
  unfold build_from.
  destruct (shape1 (encode m (health_benefits self1))) as [d|e]; [|done].
  destruct (IndexFlatL2 d) as [ix0|e]; [|done].
  by destruct (add ix0 (encode m (health_benefits self1))).
Qed.

Lemma build_faiss_index_frame self : same_catalog self (build_faiss_index self).2.
Proof.
  rewrite build_faiss_index_eq. destruct (index self); [done|].
  pose proof (load_model_frame self) as (Ha & Hm & Hl).
  destruct (load_model self) as [[[]|e] self1]; simpl in *; [|done].
  destruct (model self1) as [m|]; [|done].
  destruct (build_from_frame m self1) as (Ha' & Hm' & Hl').
  split; [|split]; congruence.
Qed.

Lemma find_all_frame q thr self :
  same_catalog self (find_all_matching_benefits q thr self).2.
Proof.
  rewrite find_all_matching_benefits_eq.
  pose proof (build_faiss_index_frame self) as Hframe.
  destruct (build_faiss_index self) as [[[]|e] self1]; simpl in *; [|done].
  destruct (model self1) as [m|]; [|done]. simpl.
  by destruct (index self1).
Qed.

(** A run of [recommend_asanas] that returns is a run of the matcher
    that returns, followed by the loop over the object's reverse index. *)
Lemma recommend_asanas_inv q age gender self res self' :
  recommend_asanas q age gender self = (Ok res, self') →
  ∃ matching,
    find_all_matching_benefits q default_threshold self = (Ok matching, self')
    ∧ Filter.recommend_loop (asana_map self) matching age gender = Ok res.
Proof.
  rewrite recommend_asanas_eq. intros Hrun.
  pose proof (find_all_frame q default_threshold self) as (_ & Hmap & _).
  destruct (find_all_matching_benefits q default_threshold self) as [[matching|e] s];
    [|done].
  simpl in Hmap. injection Hrun as Hres <-. exists matching. by rewrite <- Hmap.
Qed.

(** *** The matcher *)

Lemma py_index_of_nat {A : Type} (xs : list A) (i : nat) (x : A) :
  xs !! i = Some x → py_index xs (Z.of_nat i) = Ok x.
Proof.
  intros Hx. pose proof (lookup_lt_Some _ _ _ Hx) as Hlt. unfold py_index.
  destruct (Z.ltb_spec (Z.of_nat i) 0) as [?|_]; [lia|].
  destruct (Z.ltb_spec (Z.of_nat i) 0) as [?|_]; [lia|].
  destruct (Z.leb_spec (Z.of_nat (length xs)) (Z.of_nat i)) as [?|_]; [lia|].
  simpl. by rewrite Nat2Z.id, Hx.
Qed.

(** The comprehension of line 56 over the rows of a search that returned
    positions inside the vocabulary. *)
Lemma select_benefits_hits labels qv thr (hits : list (nat * Vec)) :
  Forall (λ h, h.1 < length labels)%nat hits →
  select_benefits labels thr ((λ h, (l2_sqr qv h.2, Z.of_nat h.1)) <$> hits)
  = Ok (omap (λ h, if lt (l2_sqr qv h.2) thr then labels !! h.1 else None) hits).
Proof.
  induction 1 as [|[i v] hits Hi _ IH]; [done|].
  rewrite fmap_cons. cbn [select_benefits omap list_omap fst snd].
  change (list_omap _ _ ?f ?l) with (omap f l).
  rewrite IH. destruct (lt (l2_sqr qv v) thr); [|done].
  apply lookup_lt_is_Some_2 in Hi as [x Hx]. simpl in Hx.
  by rewrite (py_index_of_nat _ _ _ Hx), Hx.
Qed.

Lemma omap_positions pre labels vs qv thr :
  length labels = length vs →
  omap (λ h, if lt (l2_sqr qv h.2) thr then (pre ++ labels) !! h.1 else None)
       (zip (seq (length pre) (length vs)) vs)
  = matches_of labels vs qv thr.
Proof.
  unfold matches_of. revert pre vs.
  induction labels as [|l labels IH]; intros pre [|v vs] Hlen; simplify_eq/=; [done|].
  rewrite filter_cons. simpl.
  specialize (IH (pre ++ [l]) vs Hlen).
  rewrite length_app, Nat.add_1_r, <- app_assoc in IH. simpl in IH.
  rewrite IH. destruct (lt (l2_sqr qv v) thr) eqn:Hv.
  - rewrite decide_True by done. simpl.
    by rewrite list_lookup_middle.
  - rewrite decide_False by (by intros []). done.
Qed.

Lemma build_faiss_index_returns self :
  (build_faiss_index self).1 = Ok () → is_Some (index (build_faiss_index self).2).
Proof.
  rewrite build_faiss_index_eq. destruct (index self) as [ix|] eqn:Ei.
  - intros _. simpl. rewrite Ei. eauto.
  - destruct (load_model self) as [[[]|e] self1]; [|done].
    destruct (model self1) as [m|]; [|done]. unfold build_from.
    destruct (shape1 (encode m (health_benefits self1))) as [d|e]; [|done].
    destruct (IndexFlatL2 d) as [ix0|e]; [|done].
    destruct (add ix0 (encode m (health_benefits self1))); [|done].
    simpl. eauto.
Qed.

Context `{!BackendLaws}.

(** *** The index held is the index over the vocabulary *)

Lemma consistent_with_call c self : consistent self → consistent (with_call c self).
Proof. done. Qed.

Lemma consistent_load_model self : consistent self → consistent (load_model self).2.
Proof.
  intros Hc. rewrite load_model_eq. destruct (model self) as [m|] eqn:Em; [done|].
  assert (index self = None) as Ei.
  { destruct (index self) as [ix|] eqn:Ei; [|done].
    destruct (Hc ix Ei) as (m & ? & ? & ? & _). congruence. }
  destruct (SentenceTransformer model_name); intros ix; simpl; by rewrite Ei.
Qed.

Lemma consistent_build_from m self1 :
  model self1 = Some m → index self1 = None → consistent (build_from m self1).2.
Proof.
  intros Em Ei. unfold build_from.
  destruct (shape1 (encode m (health_benefits self1))) as [d|e] eqn:Ed;
    [|by intros ix; simpl; rewrite Ei].
  destruct (IndexFlatL2 d) as [ix0|e] eqn:Ex; [|by intros ix; simpl; rewrite Ei].
  destruct (add_returns _ _ _ Ed Ex) as [ix1 Hadd]. rewrite Hadd.
  intros ix. simpl. intros [= <-]. exists m, d, ix0. by rewrite Em.
Qed.

Lemma consistent_build_faiss_index self :
  consistent self → consistent (build_faiss_index self).2.
Proof.
  intros Hc. rewrite build_faiss_index_eq.
  destruct (index self) as [ix|] eqn:Ei; [done|].
  pose proof (load_model_index self) as Ei1. rewrite Ei in Ei1.
  apply consistent_load_model in Hc.
  destruct (load_model self) as [[[]|e] self1]; simpl in *; [|done].
  destruct (model self1) as [m|] eqn:Em; [|done].
  by apply consistent_build_from.
Qed.

Lemma consistent_find_all q thr self :
  consistent self → consistent (find_all_matching_benefits q thr self).2.
Proof.
  intros Hc. rewrite find_all_matching_benefits_eq.
  apply consistent_build_faiss_index in Hc.
  destruct (build_faiss_index self) as [[[]|e] self1]; simpl in *; [|done].
  destruct (model self1) as [m|]; [|done]. simpl.
  by destruct (index self1).
Qed.

Lemma consistent_recommend q age gender self :
  consistent self → consistent (recommend_asanas q age gender self).2.
Proof.
  intros Hc. rewrite recommend_asanas_eq.
  apply (consistent_find_all q default_threshold) in Hc.
  by destruct (find_all_matching_benefits q default_threshold self) as [[?|?] ?].
Qed.

Lemma consistent_after catalog ops : consistent (after ops catalog).
Proof.
  unfold after.
  assert (consistent (__init__ catalog)) as Hinit by by intros ix.
  revert Hinit. generalize (__init__ catalog) as self.
  induction ops as [|o ops IH]; intros self Hc; [done|].
  simpl. apply IH. destruct o; simpl;
    auto using consistent_load_model, consistent_build_faiss_index,
               consistent_find_all, consistent_recommend.
Qed.

(** Lines 50-56 once the index is there: the call returns the labels
    within the threshold, each once, in the order the search reports them,
    having asked the index for as many neighbours as there are labels. *)
Lemma find_all_matching_benefits_spec self q thr :
  consistent self →
  (build_faiss_index self).1 = Ok () →
  ∃ m qv found,
    model (find_all_matching_benefits q thr self).2 = Some m
    ∧ encode m [q] = [qv]
    ∧ (find_all_matching_benefits q thr self).1 = Ok found
    ∧ found ≡ₚ matches_of (health_benefits self)
                 (encode m (health_benefits self)) qv thr
    ∧ last (calls (find_all_matching_benefits q thr self).2)
      = Some (CallSearch (length (health_benefits self))).
Proof.
  intros Hc Hbuilt. rewrite find_all_matching_benefits_eq.
  pose proof (build_faiss_index_returns self Hbuilt) as [ix Hix].
  pose proof (build_faiss_index_frame self) as (_ & _ & Hlabels).
  apply consistent_build_faiss_index in Hc.
  destruct (build_faiss_index self) as [r self1]. simpl in *. subst r.
  destruct (Hc ix Hix) as (m & d & ix0 & Hm & Hd & Hix0 & Hadd).
  rewrite Hm, Hix, Hlabels in *. simpl.
  pose proof (encode_length m [q]) as Hq.
  destruct (encode m [q]) as [|qv [|? ?]] eqn:Eq; try done. clear Hq.
  set (labels := health_benefits self) in *.
  pose proof (encode_length m labels) as Hlen.
  destruct (search_all (encode m labels) d ix0 ix qv Hd Hix0 Hadd)
    as (hits & Hperm & Hsearch).
  rewrite Hlen in Hsearch. rewrite Hsearch. simpl.
  assert (Forall (λ h : nat * Vec, h.1 < length labels)%nat hits) as Hpos.
  { rewrite Hperm, <- Hlen. apply Forall_forall. intros [i v] Hin.
    apply elem_of_zip_l in Hin. apply elem_of_seq in Hin. simpl. lia. }
  exists m, qv. eexists. split; [done|]. split; [done|].
  split; [|split].
  - rewrite zip_with_fmap_l, zip_with_fmap_r, zip_with_diag.
    by rewrite (select_benefits_hits _ _ _ _ Hpos).
  - rewrite Hperm. rewrite <- (omap_positions [] labels) by done.
    by rewrite Hlen.
  - by rewrite last_snoc.
Qed.

End WithBackend.
End RecommenderFacts.


(** ** The small backend keeps the laws *)

Section ToyLaws.
Import Toy.

#[global] Instance set_order_laws : SetOrderLaws.
Proof. intros X. reflexivity. Qed.

#[global] Instance backend_laws : BackendLaws.
Proof.
  split.
  - intros m texts. simpl. apply length_fmap.
  - intros vs d ix0 Hd Hix0. simpl. eauto.
  - intros vs d ix0 ix q Hd Hix0 Hadd. simpl in *.
    injection Hix0 as <-. injection Hadd as <-. simpl.
    exists (search_row vs (length vs) q). split; [|done].
    unfold search_row. rewrite take_ge.
    + apply merge_sort_Permutation.
    + rewrite merge_sort_Permutation, length_zip, length_seq. lia.
Qed.

End ToyLaws.

(** * The specification's claims *)

Import Filter FilterFacts.

Lemma unique_ids_NoDup l : NoDup (Doc._id <$> l) → unique_ids l.
Proof.
  intros Hnd x y Hx Hy Hid.
  apply list_elem_of_lookup in Hx as [i Hi]. apply list_elem_of_lookup in Hy as [j Hj].
  assert (i = j) as ->; [|congruence].
  eapply NoDup_lookup; [exact Hnd| |]; rewrite list_lookup_fmap.
  - by rewrite Hi.
  - by rewrite Hj, Hid.
Qed.

Lemma unique_ids_subseteq l k : l ⊆ k → unique_ids k → unique_ids l.
Proof. intros Hlk Hk x y Hx Hy. apply Hk; by apply Hlk. Qed.

(** The poses the loops visit over the index of a catalog are poses of
    that catalog. *)
Lemma visited_build_subseteq catalog matching :
  visited (Catalog.build catalog).1 matching ⊆ catalog.
Proof.
  intros a Ha. unfold visited in Ha.
  apply list_elem_of_bind in Ha as (b & Ha & _).
  rewrite CatalogFacts.get_build in Ha.
  by apply CatalogFacts.elem_of_entries in Ha as [? _].
Qed.

Lemma unique_ids_visited_build catalog matching :
  NoDup (Doc._id <$> catalog) →
  unique_ids (visited (Catalog.build catalog).1 matching).
Proof.
  intros Hnd. eapply unique_ids_subseteq; [apply visited_build_subseteq|].
  by apply unique_ids_NoDup.
Qed.

Lemma recommend_loop_Ok asana_map matching age gender res :
  recommend_loop asana_map matching age gender = Ok res ↔
  first_raise age gender (visited asana_map matching) = None
  ∧ res = keep_new (condition_true age gender) ∅ (visited asana_map matching).
Proof.
  rewrite recommend_loop_eq.
  destruct (first_raise age gender (visited asana_map matching)); naive_solver.
Qed.

Lemma str_eq_true s v : str_eq s v = true ↔ v = PyStr s.
Proof.
  destruct v as [| |t]; simpl; try (split; congruence).
  rewrite String.eqb_eq. split; congruence.
Qed.

(** The gender test for a pose without a gender field. *)
Lemma gender_matches_missing a gender :
  Doc.gender a = None →
  gender_matches a gender = if str_eq "all" gender then Ok true else Raise KeyError.
Proof. intros Hg. unfold gender_matches. rewrite Hg. reflexivity. Qed.

(** The condition of line 71 for a pose whose gender is a string. *)
Lemma condition_str_gender a age gender g b :
  Doc.gender a = Some (PyStr g) →
  condition a age gender = Ok b →
  ∃ min_age user_age,
    asana_age a = Ok min_age ∧ py_int age = Ok user_age
    ∧ (b = true ↔ min_age ≤ user_age ∧ (gender = PyStr (lower g) ∨ lower g = "all")).
Proof.
  intros Hg. unfold condition.
  destruct (asana_age a) as [min_age|e]; [|done].
  destruct (py_int age) as [user_age|e]; [|done]. simpl.
  intros Hb. exists min_age, user_age. split; [done|]. split; [done|].
  destruct (Z.leb_spec min_age user_age) as [Hle|Hgt].
  - unfold gender_matches in Hb. rewrite Hg in Hb. simpl in Hb.
    destruct (str_eq (lower g) gender) eqn:Hs.
    + apply str_eq_true in Hs. injection Hb as <-. naive_solver.
    + injection Hb as <-. rewrite String.eqb_eq. split; [naive_solver|].
      intros [_ [Hgen|Hall]]; [|done].
      apply str_eq_true in Hgen. congruence.
  - injection Hb as <-. split; [done|lia].
Qed.

(** ** The recommendation filter *)

Lemma small_visited_back_pain :
  visited (Catalog.build small_catalog).1 ["back pain"] = [childs_pose; warrior].
Proof. vm_compute. reflexivity. Qed.

Lemma small_catalog_ids : NoDup (Doc._id <$> small_catalog).
Proof. apply (bool_decide_unpack _). vm_compute. exact I. Qed.

(** C1, as the specification states it, fails.  The pose [warrior] is
    stored with gender ["Female"], takes every age, and is considered for
    ["back pain"]; under the stated rule a request for ["Female"] selects it,
    as a request for ["female"] does.  The code lowercases the pose's gender
    only: the request ["female"] selects the pose, the request ["Female"]
    does not. *)
Lemma request_gender_case_matters :
  warrior ∈ visited (Catalog.build small_catalog).1 ["back pain"]
  ∧ asana_age warrior = Ok 0
  ∧ spec_includes 0 30 "Female" "Female" = true
  ∧ spec_includes 0 30 "Female" "female" = true
  ∧ recommend_loop (Catalog.build small_catalog).1 ["back pain"]
      (PyStr "30") (PyStr "female") = Ok [childs_pose; warrior]
  ∧ recommend_loop (Catalog.build small_catalog).1 ["back pain"]
      (PyStr "30") (PyStr "Female") = Ok [childs_pose].
Proof.
  split; [|repeat split; vm_compute; reflexivity].
  rewrite small_visited_back_pain. apply list_elem_of_further, list_elem_of_here.
Qed.

(** C1, amended.  In a run of the filter that returns, over poses that
    their ids identify, a considered pose whose gender is a string is in
    the result exactly when its parsed minimum age is at most the user's age
    and its gender, lowercased, either is the requested gender exactly as
    the request spells it or is ["all"]. *)
Theorem filter_inclusion_rule asana_map matching age gender res a g :
  unique_ids (visited asana_map matching) →
  recommend_loop asana_map matching age gender = Ok res →
  a ∈ visited asana_map matching →
  Doc.gender a = Some (PyStr g) →
  ∃ min_age user_age,
    asana_age a = Ok min_age ∧ py_int age = Ok user_age
    ∧ (a ∈ res ↔
       min_age ≤ user_age ∧ (gender = PyStr (lower g) ∨ lower g = "all")).
Proof.
  intros Huniq Hrun Ha Hg.
  apply recommend_loop_Ok in Hrun as [Hnone ->].
  destruct (proj1 (first_raise_None _ _ _) Hnone a Ha) as [b Hb].
  destruct (condition_str_gender _ _ _ _ _ Hg Hb) as (min_age & user_age & Hmin & Huser & Hrule).
  exists min_age, user_age. split; [done|]. split; [done|].
  rewrite <- Hrule. split.
  - intros Hin. apply keep_new_elem in Hin as (_ & Hok & _).
    unfold condition_true in Hok. by rewrite Hb in Hok.
  - intros ->. apply keep_new_keeps; [done..| |set_solver].
    unfold condition_true. by rewrite Hb.
Qed.

Lemma filter_inclusion_rule_witness :
  ∃ min_age user_age,
    asana_age warrior = Ok min_age ∧ py_int (PyStr "30") = Ok user_age
    ∧ (warrior ∈ [childs_pose; warrior] ↔
       min_age ≤ user_age
       ∧ (PyStr "female" = PyStr (lower "Female") ∨ lower "Female" = "all")).
Proof.
  apply (filter_inclusion_rule (Catalog.build small_catalog).1 ["back pain"]
           (PyStr "30") (PyStr "female") [childs_pose; warrior] warrior "Female").
  - apply unique_ids_visited_build, small_catalog_ids.
  - vm_compute. reflexivity.
  - rewrite small_visited_back_pain. apply list_elem_of_further, list_elem_of_here.
  - reflexivity.
Defined.

(** C4.  A pose whose age field is a string that [int()] rejects (such as
    ["All"]) has minimum age 0: for every user age that parses to a
    non-negative integer the age test holds, and the condition of line 71 is
    the gender test alone. *)
Theorem unparseable_pose_age_counts_as_zero a s :
  Doc.age a = Some (PyStr s) →
  int_of_str s = None →
  asana_age a = Ok 0
  ∧ ∀ age gender user_age,
      py_int age = Ok user_age → 0 ≤ user_age →
      condition a age gender = gender_matches a gender.
Proof.
  intros Hage Hparse.
  assert (asana_age a = Ok 0) as Hzero.
  { unfold asana_age. rewrite Hage. simpl. by rewrite Hparse. }
  split; [done|]. intros age gender user_age Huser Hpos.
  unfold condition. rewrite Hzero, Huser. simpl.
  by destruct (Z.leb_spec 0 user_age); [|lia].
Qed.

Lemma unparseable_pose_age_counts_as_zero_witness :
  asana_age warrior = Ok 0
  ∧ ∀ age gender user_age,
      py_int age = Ok user_age → 0 ≤ user_age →
      condition warrior age gender = gender_matches warrior gender.
Proof.
  apply (unparseable_pose_age_counts_as_zero warrior "All"); reflexivity.
Defined.

(** Only [ValueError] is tolerated: a pose whose age field is [null]
    makes the loop raise [TypeError]. *)
Lemma null_pose_age_raises a :
  Doc.age a = Some PyNone → asana_age a = Raise TypeError.
Proof. intros Hage. unfold asana_age. by rewrite Hage. Qed.

(** C6.  In a run of the filter that returns, a considered pose whose
    gender is ["all"] in any case, and whose minimum age is at most the
    user's, is in the result whatever gender was requested: its id is one of
    the result's, and where ids identify poses the pose itself is there. *)
Theorem wildcard_gender_pose_included asana_map matching age gender res a g
    min_age user_age :
  recommend_loop asana_map matching age gender = Ok res →
  a ∈ visited asana_map matching →
  Doc.gender a = Some (PyStr g) →
  lower g = "all" →
  asana_age a = Ok min_age →
  py_int age = Ok user_age →
  min_age ≤ user_age →
  Doc._id a ∈ (Doc._id <$> res)
  ∧ (unique_ids (visited asana_map matching) → a ∈ res).
Proof.
  intros Hrun Ha Hg Hall Hmin Huser Hle.
  apply recommend_loop_Ok in Hrun as [Hnone ->].
  assert (condition_true age gender a = true) as Hok.
  { unfold condition_true, condition. rewrite Hmin, Huser. simpl.
    destruct (Z.leb_spec min_age user_age); [|lia].
    unfold gender_matches. rewrite Hg. simpl. rewrite Hall.
    by destruct (str_eq "all" gender). }
  split.
  - apply keep_new_ids. split; [set_solver|]. eauto.
  - intros Huniq. apply keep_new_keeps; [done..|set_solver].
Qed.

Lemma wildcard_gender_pose_included_witness :
  Doc._id childs_pose ∈ (Doc._id <$> [childs_pose])
  ∧ (unique_ids (visited (Catalog.build small_catalog).1 ["back pain"]) →
     childs_pose ∈ [childs_pose]).
Proof.
  apply (wildcard_gender_pose_included (Catalog.build small_catalog).1 ["back pain"]
           (PyStr "30") (PyStr "Female") [childs_pose] childs_pose "all" 0 30).
  - vm_compute. reflexivity.
  - rewrite small_visited_back_pain. apply list_elem_of_here.
  - reflexivity.
  - reflexivity.
  - reflexivity.
  - reflexivity.
  - lia.
Defined.

(** *** Order of the result *)

Lemma keep_new_segments ok seen asana_map matching :
  keep_new ok seen (visited asana_map matching)
  = concat (segments ok seen asana_map matching).
Proof.
  revert seen. induction matching as [|b bs IH]; intros seen; [done|].
  unfold visited. rewrite bind_cons. fold (visited asana_map bs).
  rewrite keep_new_app, IH. done.
Qed.

Lemma segments_sublist ok seen catalog matching :
  Forall2 (λ b seg,
             seg `sublist_of` Catalog.get (Catalog.build catalog).1 b
             ∧ seg `sublist_of` catalog)
          matching (segments ok seen (Catalog.build catalog).1 matching).
Proof.
  revert seen. induction matching as [|b bs IH]; intros seen; simpl; constructor.
  - pose proof (keep_new_sublist ok seen (Catalog.get (Catalog.build catalog).1 b)) as Hsub.
    split; [done|].
    apply (CatalogFacts.entries_NoDup_sublist b).
    + by rewrite <- CatalogFacts.get_build.
    + eapply NoDup_fmap_1, keep_new_NoDup.
  - apply IH.
Qed.

Lemma once_by_id (l : list Asana) i :
  NoDup (Doc._id <$> l) → i ∈ (Doc._id <$> l) →
  length (filter (λ x, Doc._id x = i) l) = 1%nat.
Proof.
  induction l as [|x l IH]; [by inversion 2|].
  rewrite fmap_cons, NoDup_cons, elem_of_cons, filter_cons. intros [Hx Hnd] Hi.
  case_decide as Hid.
  - subst i. simpl. f_equal.
    destruct (filter (λ y, Doc._id y = Doc._id x) l) as [|z zs] eqn:Hf; [done|].
    exfalso. apply Hx.
    assert (z ∈ filter (λ y, Doc._id y = Doc._id x) l) as Hz by (rewrite Hf; left).
    apply list_elem_of_filter in Hz as [Hzid Hzl].
    apply list_elem_of_fmap. eauto.
  - apply IH; [done|]. destruct Hi as [->|Hi]; done.
Qed.

(** C7.  Over the reverse index of a catalog, in a run of the filter that
    returns: every pose that a matched benefit lists and that satisfies the
    age and gender condition has its id exactly once in the result (and is
    itself there when the catalog's ids are unique); and the result is the
    concatenation, in the order of the matched benefits, of the poses each
    benefit contributed, each such group listed in the order of that
    benefit's entry, which is the order of the catalog. *)
Theorem shared_benefit_poses_in_catalog_order catalog matching age gender res :
  recommend_loop (Catalog.build catalog).1 matching age gender = Ok res →
  (∀ b a,
      b ∈ matching →
      a ∈ Catalog.get (Catalog.build catalog).1 b →
      condition a age gender = Ok true →
      length (filter (λ x, Doc._id x = Doc._id a) res) = 1%nat
      ∧ (NoDup (Doc._id <$> catalog) → a ∈ res))
  ∧ res = concat (segments (condition_true age gender) ∅ (Catalog.build catalog).1 matching)
  ∧ Forall2 (λ b seg,
               seg `sublist_of` Catalog.get (Catalog.build catalog).1 b
               ∧ seg `sublist_of` catalog)
            matching
            (segments (condition_true age gender) ∅ (Catalog.build catalog).1 matching).
Proof.
  intros Hrun. apply recommend_loop_Ok in Hrun as [Hnone ->].
  split; [|split].
  - intros b a Hb Ha Hadm.
    assert (a ∈ visited (Catalog.build catalog).1 matching) as Hvis.
    { unfold visited. apply list_elem_of_bind. eauto. }
    assert (condition_true age gender a = true) as Hok.
    { unfold condition_true. by rewrite Hadm. }
    split.
    + apply once_by_id; [apply keep_new_NoDup|].
      apply keep_new_ids. split; [set_solver|]. eauto.
    + intros Hnd. apply keep_new_keeps; [|done..|set_solver].
      by apply unique_ids_visited_build.
  - apply keep_new_segments.
  - apply segments_sublist.
Qed.

Lemma shared_benefit_poses_in_catalog_order_witness :
  (∀ b a,
      b ∈ ["back pain"] →
      a ∈ Catalog.get (Catalog.build small_catalog).1 b →
      condition a (PyStr "30") (PyStr "female") = Ok true →
      length (filter (λ x, Doc._id x = Doc._id a) [childs_pose; warrior]) = 1%nat
      ∧ (NoDup (Doc._id <$> small_catalog) → a ∈ [childs_pose; warrior]))
  ∧ [childs_pose; warrior]
    = concat (segments (condition_true (PyStr "30") (PyStr "female")) ∅
                (Catalog.build small_catalog).1 ["back pain"])
  ∧ Forall2 (λ b seg,
               seg `sublist_of` Catalog.get (Catalog.build small_catalog).1 b
               ∧ seg `sublist_of` small_catalog)
            ["back pain"]
            (segments (condition_true (PyStr "30") (PyStr "female")) ∅
               (Catalog.build small_catalog).1 ["back pain"]).
Proof.
  apply (shared_benefit_poses_in_catalog_order small_catalog
           ["back pain"] (PyStr "30") (PyStr "female") [childs_pose; warrior]).
  vm_compute. reflexivity.
Defined.

(** The result follows the matched benefits first, the catalog second: a
    later pose of the catalog precedes an earlier one when its benefit is
    matched first. *)
Example result_order_follows_benefits :
  recommend_loop (Catalog.build small_catalog).1 ["stress relief"; "back pain"]
    (PyStr "30") (PyStr "all") = Ok [cobra; childs_pose].
Proof. vm_compute. reflexivity. Qed.

(** ** The catalog loader and the object *)

Section Claims.
Import Recommender RecommenderFacts.
Context `{SetOrder} `{Backend}.

(** C2.  The list [recommend_asanas] returns holds no two poses with the
    same [_id], whatever the object, the query, the age and the gender; and
    an iteration that meets a pose whose id is already in [seen_asanas]
    leaves [seen_asanas] and [recommended_asanas] as they were. *)
Theorem recommend_asanas_no_duplicate_ids self q age gender res self' :
  recommend_asanas q age gender self = (Ok res, self') →
  NoDup (Doc._id <$> res)
  ∧ ∀ st a st', Doc._id a ∈ st.1 → visit age gender st a = Ok st' → st' = st.
Proof.
  intros Hrun. split.
  - apply recommend_asanas_inv in Hrun as (matching & _ & Hloop).
    apply recommend_loop_Ok in Hloop as [_ ->]. apply keep_new_NoDup.
  - intros st a st' Hseen. rewrite visit_unfold.
    destruct (condition a age gender) as [b|e]; [|done].
    rewrite bool_decide_eq_true_2 by done. rewrite andb_false_r. congruence.
Qed.

(** C5, amended.  With a user age that [int()] rejects, [recommend_asanas]
    returns no pose and assumes no age: if the matcher raises, so does the
    call; if the matched benefits list no pose at all, the call returns the
    empty list and the age is never looked at; otherwise the call raises at
    the first pose visited, with the error of [int(age)] unless that pose's
    own age field raised before. *)
Theorem unparseable_user_age self q age gender e :
  py_int age = Raise e →
  match (find_all_matching_benefits q default_threshold self).1 with
  | Raise e' => (recommend_asanas q age gender self).1 = Raise e'
  | Ok matching =>
      match visited (asana_map self) matching with
      | [] => (recommend_asanas q age gender self).1 = Ok []
      | a :: _ =>
          (recommend_asanas q age gender self).1
          = Raise (match asana_age a with Raise e' => e' | Ok _ => e end)
      end
  end.
Proof.
  intros Hage. rewrite recommend_asanas_eq.
  pose proof (find_all_frame q default_threshold self) as (_ & Hmap & _).
  destruct (find_all_matching_benefits q default_threshold self) as [[matching|e'] s];
    simpl in *; [|done].
  rewrite Hmap, recommend_loop_eq.
  destruct (visited (asana_map self) matching) as [|a l]; [done|]. simpl.
  unfold condition. rewrite Hage. by destruct (asana_age a).
Qed.

(** C8.  After [__init__], the poses found in the lists of the reverse
    index are exactly the poses of the catalog that list at least one
    benefit, and the vocabulary holds no label twice. *)
Theorem reverse_index_covers_catalog `{!SetOrderLaws} catalog :
  (∀ a, (∃ b l, asana_map (__init__ catalog) !! b = Some l ∧ a ∈ l)
        ↔ a ∈ catalog ∧ Catalog.benefits_of a ≠ [])
  ∧ NoDup (health_benefits (__init__ catalog)).
Proof.
  split.
  - intros a. simpl. split.
    + intros (b & l & Hb & Ha).
      assert (a ∈ Catalog.get (Catalog.build catalog).1 b) as Hget.
      { apply CatalogFacts.elem_of_get. eauto. }
      rewrite CatalogFacts.get_build in Hget.
      apply CatalogFacts.elem_of_entries in Hget as [Hin Hben].
      split; [done|]. intros Hnil. rewrite Hnil in Hben. inversion Hben.
    + intros [Hin Hben].
      destruct (Catalog.benefits_of a) as [|b bs] eqn:Hbs; [done|].
      exists b. apply CatalogFacts.elem_of_get.
      rewrite CatalogFacts.get_build. apply CatalogFacts.elem_of_entries.
      split; [done|]. rewrite Hbs. left.
  - simpl. rewrite list_of_set_perm. apply NoDup_elements.
Qed.

(** The labels of the vocabulary are the keys of the reverse index. *)
Lemma vocabulary_is_index_domain `{!SetOrderLaws} catalog b :
  b ∈ health_benefits (__init__ catalog) ↔ b ∈ dom (asana_map (__init__ catalog)).
Proof.
  simpl. rewrite list_of_set_perm, elem_of_elements, CatalogFacts.dom_build. done.
Qed.

(** C9.  Nothing is loaded or built at construction; [build_faiss_index]
    on an object that holds an index, and [load_model] on one that holds a
    model, return at once, changing nothing and calling nothing; a build
    that returned leaves an object on which building again is such a no-op;
    and however the object is used, the record of its calls shows at most
    one index constructed and at most one model loaded, none of either
    exactly while the object holds none. *)
Theorem index_built_once :
  (∀ catalog,
      model (__init__ catalog) = None ∧ index (__init__ catalog) = None
      ∧ calls (__init__ catalog) = [])
  ∧ (∀ self, is_Some (index self) → build_faiss_index self = (Ok (), self))
  ∧ (∀ self self1,
        build_faiss_index self = (Ok (), self1) →
        is_Some (index self1) ∧ build_faiss_index self1 = (Ok (), self1))
  ∧ (∀ self, is_Some (model self) → load_model self = (Ok (), self))
  ∧ (∀ catalog ops,
        (builds (calls (after ops catalog)) ≤ 1)%nat
        ∧ (loads (calls (after ops catalog)) ≤ 1)%nat
        ∧ (builds (calls (after ops catalog)) = 0%nat ↔ index (after ops catalog) = None)
        ∧ (loads (calls (after ops catalog)) = 0%nat ↔ model (after ops catalog) = None)).
Proof.
  assert (∀ self, is_Some (index self) → build_faiss_index self = (Ok (), self)) as Hnoop.
  { intros self [ix Hix]. rewrite build_faiss_index_eq. by rewrite Hix. }
  split; [done|]. split; [done|]. split; [|split].
  - intros self self1 Hrun.
    pose proof (build_faiss_index_returns self) as Hret. rewrite Hrun in Hret.
    specialize (Hret eq_refl). split; [done|]. by apply Hnoop.
  - intros self [m Hm]. rewrite load_model_eq. by rewrite Hm.
  - intros catalog ops.
    destruct (invariant_after catalog ops) as [_ _ _ _ Hl Hb].
    rewrite Hl, Hb.
    destruct (index (after ops catalog)), (model (after ops catalog)); simpl;
      repeat split; (lia || done).
Qed.

(** C10.  For a pose without a gender field and a requested gender other
    than the string ["all"], the gender test raises [KeyError]: the default
    ["all"] serves the first comparison only (with the request ["all"] it
    makes the test true).  Whenever the age test lets such a pose through
    and no pose visited before it raised, [recommend_asanas] raises
    [KeyError]. *)
Theorem missing_gender_raises_KeyError a gender :
  Doc.gender a = None →
  gender ≠ PyStr "all" →
  gender_matches a gender = Raise KeyError
  ∧ gender_matches a (PyStr "all") = Ok true
  ∧ ∀ age min_age user_age,
      asana_age a = Ok min_age →
      py_int age = Ok user_age →
      min_age ≤ user_age →
      condition a age gender = Raise KeyError
      ∧ ∀ self q matching before rest,
          (find_all_matching_benefits q default_threshold self).1 = Ok matching →
          visited (asana_map self) matching = before ++ a :: rest →
          (∀ x, x ∈ before → ∃ b, condition x age gender = Ok b) →
          (recommend_asanas q age gender self).1 = Raise KeyError.
Proof.
  intros Hg Hreq.
  assert (gender_matches a gender = Raise KeyError) as Htest.
  { rewrite gender_matches_missing by done.
    destruct (str_eq "all" gender) eqn:Hs; [|done].
    apply str_eq_true in Hs. done. }
  split; [done|]. split; [by rewrite gender_matches_missing|].
  intros age min_age user_age Hmin Huser Hle.
  assert (condition a age gender = Raise KeyError) as Hraise.
  { unfold condition. rewrite Hmin, Huser. simpl.
    by destruct (Z.leb_spec min_age user_age); [|lia]. }
  split; [done|].
  intros self q matching before rest Hfind Hvis Hbefore.
  rewrite recommend_asanas_eq.
  pose proof (find_all_frame q default_threshold self) as (_ & Hmap & _).
  destruct (find_all_matching_benefits q default_threshold self) as [r s].
  simpl in *. subst r. rewrite Hmap, recommend_loop_eq, Hvis.
  apply first_raise_None in Hbefore.
  rewrite first_raise_app, Hbefore. simpl. by rewrite Hraise.
Qed.

End Claims.

(** ** The benefit matcher *)

Section MatcherClaims.
Import Recommender RecommenderFacts.
Context `{SetOrder} `{Backend} `{!BackendLaws}.

Lemma elem_of_matches_of labels vs qv thr label :
  label ∈ matches_of labels vs qv thr ↔
  ∃ v, (label, v) ∈ zip labels vs ∧ lt (l2_sqr qv v) thr = true.
Proof.
  unfold matches_of. rewrite list_elem_of_fmap. split.
  - intros ([l v] & -> & Hin). apply list_elem_of_filter in Hin as [Hlt Hin].
    exists v. split; [done|]. by apply Is_true_true.
  - intros (v & Hin & Hlt). exists (label, v). split; [done|].
    apply list_elem_of_filter. split; [|done]. by apply Is_true_true.
Qed.

Lemma length_matches_of labels vs qv thr :
  (length (matches_of labels vs qv thr) ≤ length labels)%nat.
Proof.
  unfold matches_of. rewrite length_fmap.
  etrans; [apply length_filter|]. rewrite length_zip. lia.
Qed.

(** C3.  On an object in any state it can reach, when the model loads and
    the index builds, [find_all_matching_benefits] returns; its last call to
    the backend is a search for as many neighbours as the vocabulary has
    labels; what it returns is, up to order, the list of the labels whose
    embedding is at a distance from the query's strictly below the
    threshold, so a label is returned exactly when its distance is below the
    threshold, no more labels are returned than the vocabulary has, and the
    empty list is returned when no distance is below the threshold. *)
Theorem matcher_returns_labels_within_threshold catalog ops q thr :
  (build_faiss_index (after ops catalog)).1 = Ok () →
  ∃ m qv found,
    model (find_all_matching_benefits q thr (after ops catalog)).2 = Some m
    ∧ encode m [q] = [qv]
    ∧ (find_all_matching_benefits q thr (after ops catalog)).1 = Ok found
    ∧ last (calls (find_all_matching_benefits q thr (after ops catalog)).2)
      = Some (CallSearch (length (health_benefits (after ops catalog))))
    ∧ found ≡ₚ matches_of (health_benefits (after ops catalog))
                 (encode m (health_benefits (after ops catalog))) qv thr
    ∧ (∀ label,
          label ∈ found ↔
          ∃ v, (label, v) ∈ zip (health_benefits (after ops catalog))
                               (encode m (health_benefits (after ops catalog)))
               ∧ lt (l2_sqr qv v) thr = true)
    ∧ (length found ≤ length (health_benefits (after ops catalog)))%nat
    ∧ ((∀ v, v ∈ encode m (health_benefits (after ops catalog)) →
             lt (l2_sqr qv v) thr = false) →
       found = []).
Proof.
  intros Hbuilt.
  destruct (find_all_matching_benefits_spec (after ops catalog) q thr
              (consistent_after catalog ops) Hbuilt)
    as (m & qv & found & Hm & Hq & Hfound & Hperm & Hlast).
  exists m, qv, found. repeat (split; [done|]). split; [|split].
  - intros label. rewrite Hperm. apply elem_of_matches_of.
  - rewrite Hperm. apply length_matches_of.
  - intros Hnone. apply Permutation_nil_r. rewrite Hperm.
    destruct (matches_of _ _ qv thr) as [|label rest] eqn:Hmatches; [done|].
    assert (label ∈ matches_of (health_benefits (after ops catalog))
                      (encode m (health_benefits (after ops catalog))) qv thr) as Hin.
    { rewrite Hmatches. left. }
    apply elem_of_matches_of in Hin as (v & Hin & Hlt).
    apply elem_of_zip_r in Hin. rewrite (Hnone v Hin) in Hlt. done.
Qed.

End MatcherClaims.

(** ** Further properties of [recommend_asanas] *)

Section Further.
Import Recommender RecommenderFacts.
Context `{SetOrder} `{Backend}.

Lemma condition_returns a age gender user_age :
  py_int age = Ok user_age → well_formed a → ∃ b, condition a age gender = Ok b.
Proof.
  intros Huser [[g Hg] Hage]. unfold condition.
  assert (∃ min_age, asana_age a = Ok min_age) as [min_age ->].
  { unfold asana_age. destruct (Doc.age a) as [[|z|s]|]; simpl; eauto; [done|].
    destruct (int_of_str s); eauto. }
  rewrite Huser. simpl. destruct (min_age <=? user_age); [|eauto].
  unfold gender_matches. rewrite Hg. simpl.
  destruct (str_eq (lower g) gender); eauto.
Qed.

(** On documents whose gender is a string and whose age is not null, and
    with a user age that parses, the loops of [recommend_asanas] raise
    nothing: when the matcher returns, so does the call. *)
Theorem recommend_asanas_returns_on_well_formed self q age gender user_age matching :
  py_int age = Ok user_age →
  (find_all_matching_benefits q default_threshold self).1 = Ok matching →
  Forall well_formed (visited (asana_map self) matching) →
  ∃ res, (recommend_asanas q age gender self).1 = Ok res.
Proof.
  intros Huser Hfind Hwf. rewrite recommend_asanas_eq.
  pose proof (find_all_frame q default_threshold self) as (_ & Hmap & _).
  destruct (find_all_matching_benefits q default_threshold self) as [r s].
  simpl in *. subst r. rewrite Hmap, recommend_loop_eq.
  assert (first_raise age gender (visited (asana_map self) matching) = None) as ->.
  { apply first_raise_None. intros a Ha.
    eapply condition_returns; [done|]. by eapply Forall_forall in Hwf. }
  eauto.
Qed.

(** Only [ValueError] is caught at lines 66-69: a document whose age
    field is null, visited first, makes the call raise [TypeError]. *)
Theorem null_pose_age_raises_TypeError self q age gender matching a rest :
  (find_all_matching_benefits q default_threshold self).1 = Ok matching →
  visited (asana_map self) matching = a :: rest →
  Doc.age a = Some PyNone →
  (recommend_asanas q age gender self).1 = Raise TypeError.
Proof.
  intros Hfind Hvis Hage. rewrite recommend_asanas_eq.
  pose proof (find_all_frame q default_threshold self) as (_ & Hmap & _).
  destruct (find_all_matching_benefits q default_threshold self) as [r s].
  simpl in *. subst r. rewrite Hmap, recommend_loop_eq, Hvis. simpl.
  unfold condition. by rewrite (null_pose_age_raises a Hage).
Qed.

(** Every pose [recommend_asanas] returns is listed, in the reverse
    index, under a benefit the matcher returned, and passes the condition of
    line 71. *)
Theorem recommend_asanas_sound self q age gender res self' a :
  recommend_asanas q age gender self = (Ok res, self') →
  a ∈ res →
  ∃ matching b,
    (find_all_matching_benefits q default_threshold self).1 = Ok matching
    ∧ b ∈ matching
    ∧ a ∈ Catalog.get (asana_map self) b
    ∧ condition a age gender = Ok true.
Proof.
  intros Hrun Ha. apply recommend_asanas_inv in Hrun as (matching & Hfind & Hloop).
  apply recommend_loop_Ok in Hloop as [Hnone ->].
  apply keep_new_elem in Ha as (Hvis & Hok & _).
  unfold visited in Hvis. apply list_elem_of_bind in Hvis as (b & Hget & Hb).
  exists matching, b. rewrite Hfind. repeat (split; [done|]).
  unfold condition_true in Hok.
  destruct (condition a age gender) as [[|]|e]; done.
Qed.

(** No method changes the catalog, the reverse index or the vocabulary. *)
Theorem methods_keep_catalog self q thr age gender :
  same_catalog self (load_model self).2
  ∧ same_catalog self (build_faiss_index self).2
  ∧ same_catalog self (find_all_matching_benefits q thr self).2
  ∧ same_catalog self (recommend_asanas q age gender self).2.
Proof.
  split; [apply load_model_frame|]. split; [apply build_faiss_index_frame|].
  split; [apply find_all_frame|].
  rewrite recommend_asanas_eq.
  pose proof (find_all_frame q default_threshold self) as Hframe.
  by destruct (find_all_matching_benefits q default_threshold self) as [[?|?] ?].
Qed.

End Further.

(** ** The claims on the small catalog and backend *)

Section OnSmallCatalog.
Import Recommender RecommenderFacts Toy.

(** The scenarios of the specification. *)
Example scenario_back_pain :
  (recommend_asanas "back pain" (PyStr "30") (PyStr "female")
     (__init__ [childs_pose])).1 = Ok [childs_pose].
Proof. vm_compute. reflexivity. Qed.

Example scenario_unrelated :
  (recommend_asanas "unrelated concern" (PyStr "30") (PyStr "female")
     (__init__ [childs_pose])).1 = Ok [].
Proof. vm_compute. reflexivity. Qed.

(** Building twice calls the backend as building once does. *)
Example build_twice_calls :
  calls (after [OpBuildIndex; OpBuildIndex] small_catalog)
  = [CallSentenceTransformer model_name true;
     CallEncode ["stress relief"; "back pain"];
     CallIndexFlatL2 1 true; CallAdd 2 true].
Proof. vm_compute. reflexivity. Qed.

Lemma recommend_asanas_no_duplicate_ids_witness :
  (recommend_asanas "back pain" (PyStr "30") (PyStr "female")
     (__init__ small_catalog)).1 = Ok [childs_pose; warrior]
  ∧ NoDup (Doc._id <$> [childs_pose; warrior]).
Proof.
  split; [vm_compute; reflexivity|].
  apply (recommend_asanas_no_duplicate_ids (__init__ small_catalog) "back pain"
           (PyStr "30") (PyStr "female") [childs_pose; warrior]
           (recommend_asanas "back pain" (PyStr "30") (PyStr "female")
              (__init__ small_catalog)).2).
  vm_compute. reflexivity.
Defined.

(** C5, as the specification states it, fails: the age ["abc"] does not
    parse, and the request returns the empty list, as a request that found
    nothing suitable does, when no benefit matches the query. *)
Lemma unparseable_user_age_returns_empty :
  py_int (PyStr "abc") = Raise ValueError
  ∧ (recommend_asanas "unrelated concern" (PyStr "abc") (PyStr "female")
       (__init__ small_catalog)).1 = Ok [].
Proof. split; vm_compute; reflexivity. Qed.

Lemma unparseable_user_age_witness :
  py_int (PyStr "abc") = Raise ValueError
  ∧ (recommend_asanas "back pain" (PyStr "abc") (PyStr "female")
       (__init__ small_catalog)).1 = Raise ValueError.
Proof.
  split; [reflexivity|].
  pose proof (unparseable_user_age (__init__ small_catalog) "back pain"
                (PyStr "abc") (PyStr "female") ValueError eq_refl) as Hrun.
  vm_compute in Hrun. vm_compute. exact Hrun.
Defined.

Lemma reverse_index_covers_catalog_witness :
  SetOrderLaws
  ∧ (∀ a, (∃ b l, asana_map (__init__ small_catalog) !! b = Some l ∧ a ∈ l)
          ↔ a ∈ small_catalog ∧ Catalog.benefits_of a ≠ [])
  ∧ NoDup (health_benefits (__init__ small_catalog)).
Proof.
  split; [exact set_order_laws|].
  apply (reverse_index_covers_catalog small_catalog).
Defined.

Lemma missing_gender_raises_KeyError_witness :
  Doc.gender cobra = None
  ∧ PyStr "female" ≠ PyStr "all"
  ∧ gender_matches cobra (PyStr "female") = Raise KeyError
  ∧ gender_matches cobra (PyStr "all") = Ok true
  ∧ (recommend_asanas "stress relief" (PyStr "30") (PyStr "female")
       (__init__ small_catalog)).1 = Raise KeyError.
Proof.
  assert (PyStr "female" ≠ PyStr "all") as Hreq by discriminate.
  destruct (missing_gender_raises_KeyError cobra (PyStr "female") eq_refl Hreq)
    as (Htest & Hall & Hrest).
  destruct (Hrest (PyStr "30") 12 30 eq_refl eq_refl ltac:(lia)) as [_ Hrun].
  repeat (split; [done|]).
  apply (Hrun (__init__ small_catalog) "stress relief" ["stress relief"] [warrior] []).
  - vm_compute. reflexivity.
  - vm_compute. reflexivity.
  - intros x Hx. apply list_elem_of_singleton in Hx as ->. exists true.
    vm_compute. reflexivity.
Defined.

Lemma matcher_returns_labels_within_threshold_witness :
  (build_faiss_index (after [] small_catalog)).1 = Ok ()
  ∧ ∃ found,
      (find_all_matching_benefits "back pain" default_threshold
         (after [] small_catalog)).1 = Ok found
      ∧ found ≡ₚ ["back pain"]
      ∧ (length found ≤ 2)%nat.
Proof.
  split; [vm_compute; reflexivity|].
  destruct (matcher_returns_labels_within_threshold small_catalog [] "back pain"
              default_threshold)
    as (m & qv & found & _ & Hq & Hfound & _ & Hperm & _ & Hlen & _).
  { vm_compute. reflexivity. }
  exists found. split; [done|]. split; [|exact Hlen].
  rewrite Hperm. destruct m. injection Hq as <-. vm_compute. reflexivity.
Defined.

Lemma recommend_asanas_returns_on_well_formed_witness :
  py_int (PyStr "30") = Ok 30
  ∧ ∃ res,
      (recommend_asanas "back pain" (PyStr "30") (PyStr "female")
         (__init__ small_catalog)).1 = Ok res.
Proof.
  split; [reflexivity|].
  apply (recommend_asanas_returns_on_well_formed (__init__ small_catalog) "back pain"
           (PyStr "30") (PyStr "female") 30 ["back pain"]).
  - reflexivity.
  - vm_compute. reflexivity.
  - assert (visited (asana_map (__init__ small_catalog)) ["back pain"]
            = [childs_pose; warrior]) as -> by (vm_compute; reflexivity).
    repeat constructor; try (by eexists); discriminate.
Defined.

Lemma null_pose_age_raises_TypeError_witness :
  Doc.age tree = Some PyNone
  ∧ (recommend_asanas "balance" (PyStr "30") (PyStr "male") (__init__ [tree])).1
    = Raise TypeError.
Proof.
  split; [reflexivity|].
  apply (null_pose_age_raises_TypeError (__init__ [tree]) "balance" (PyStr "30")
           (PyStr "male") ["balance"] tree []).
  - vm_compute. reflexivity.
  - vm_compute. reflexivity.
  - reflexivity.
Defined.

Lemma recommend_asanas_sound_witness :
  (recommend_asanas "back pain" (PyStr "30") (PyStr "female")
     (__init__ small_catalog)).1 = Ok [childs_pose; warrior]
  ∧ ∃ matching b,
      (find_all_matching_benefits "back pain" default_threshold
         (__init__ small_catalog)).1 = Ok matching
      ∧ b ∈ matching
      ∧ warrior ∈ Catalog.get (asana_map (__init__ small_catalog)) b
      ∧ condition warrior (PyStr "30") (PyStr "female") = Ok true.
Proof.
  split; [vm_compute; reflexivity|].
  apply (recommend_asanas_sound (__init__ small_catalog) "back pain"
           (PyStr "30") (PyStr "female") [childs_pose; warrior]
           (recommend_asanas "back pain" (PyStr "30") (PyStr "female")
              (__init__ small_catalog)).2 warrior).
  - vm_compute. reflexivity.
  - apply list_elem_of_further, list_elem_of_here.
Defined.

End OnSmallCatalog.


(** * Further properties of the code *)

(** ** The report *)

Module ReportFacts.
Import Report App.
Section WithOutside.
Context `{SetOrder} `{Backend} `{!Outside}.

Lemma R_bind_eq {A B : Type} (m : R A) (k : A → R B) o :
  (m ≫= k) o =
  match m o with
  | (Ok a, o') => k a o'
  | (Raise e, o') => (Raise e, o')
  end.
Proof. reflexivity. Qed.

Lemma Paragraph_eq text st o :
  Paragraph text st o =
  (match parse_paragraph text st with
   | Ok _ => Ok (EParagraph text st)
   | Raise e => Raise e
   end, o).
Proof.
  unfold Paragraph. rewrite R_bind_eq. unfold lift_result.
  by destruct (parse_paragraph text st).
Qed.

(** [fetch_image] returns whatever the request does, and the picture only
    when the request returned status 200 and its content could be read. *)
Lemma fetch_image_eq url o :
  fetch_image url o =
  let answer := requests_get url (world o) in
  let got := match answer.1 with
             | Ok (status, Ok content) => if status =? 200 then Some content else None
             | Ok (_, Raise _) | Raise _ => None
             end in
  (Ok got, Out answer.2 (events o ++ [Fetch url (bool_decide (is_Some got))])).
Proof.
  unfold fetch_image. rewrite R_bind_eq. unfold try_except. rewrite R_bind_eq.
  unfold in_world.
  destruct (requests_get url (world o)) as [[[status [content|e]]|e] w]; simpl;
    try done; by destruct (status =? 200).
Qed.

(** The bullet paragraphs of a list of items, appended in order; the
    outside is not touched. *)
Lemma append_bullets_eq elements items o :
  append_bullets elements items o =
  (match
     foldM (λ (_ : ()) item, parse_paragraph (bullet item) BodyText) items ()
   with
   | Ok _ => Ok (elements ++ ((λ item, EParagraph (bullet item) BodyText) <$> items))
   | Raise e => Raise e
   end, o).
Proof.
  unfold append_bullets. revert elements.
  induction items as [|item items IH]; intros elements.
  - simpl. by rewrite app_nil_r.
  - cbn [for_each foldM]. rewrite !R_bind_eq, Paragraph_eq.
    destruct (parse_paragraph (bullet item) BodyText) as [[]|e]; [|done].
    cbn [mret R_ret]. rewrite IH. cbn [mbind result_bind].
    destruct (foldM _ items ()); [|done]. rewrite fmap_cons, <- app_assoc. done.
Qed.

(** One turn of the loop of [generate_pdf_in_memory] that returns has
    appended the section of the pose, with the picture the request gave, and
    has made that one request, or none when the pose has no picture URL. *)
Lemma append_section_returns elements asana o elements' o' :
  append_section elements asana o = (Ok elements', o') →
  ∃ image,
    elements' = elements ++ section image asana
    ∧ events o' = events o ++ fetch_of image asana
    ∧ (truthy (default ""%string (Doc.image_url asana)) = false → image = None).
Proof.
  assert (∀ els o1,
    (steps ← Paragraph "<b>Steps to Perform:</b>" Heading3;
     let elements := els ++ [steps] in
     elements ← append_bullets elements (default [] (Doc.pose_direction asana));
     let elements := elements ++ [ESpacer 1 10] in
     contra ← Paragraph "<b>Contraindications:</b>" Heading3;
     let elements := elements ++ [contra] in
     elements ← append_bullets elements (default [] (Doc.contraindications asana));
     mret (elements ++ [EPageBreak])) o1 = (Ok elements', o') →
    o' = o1 ∧
    elements' = els
      ++ [EParagraph "<b>Steps to Perform:</b>" Heading3]
      ++ ((λ step, EParagraph (bullet step) BodyText) <$> default [] (Doc.pose_direction asana))
      ++ [ESpacer 1 10; EParagraph "<b>Contraindications:</b>" Heading3]
      ++ ((λ c, EParagraph (bullet c) BodyText) <$> default [] (Doc.contraindications asana))
      ++ [EPageBreak]) as Htail.
  { intros els o1. rewrite R_bind_eq, Paragraph_eq.
    destruct (parse_paragraph _ Heading3) as [[]|e]; [|done].
    cbv zeta. rewrite R_bind_eq, append_bullets_eq.
    destruct (foldM _ (default [] (Doc.pose_direction asana)) ()); [|done].
    rewrite R_bind_eq, Paragraph_eq.
    destruct (parse_paragraph _ Heading3) as [[]|e]; [|done].
    rewrite R_bind_eq, append_bullets_eq.
    destruct (foldM _ (default [] (Doc.contraindications asana)) ()); [|done].
    intros [= <- <-]. split; [done|]. rewrite <- !app_assoc. done. }
  unfold append_section, section, fetch_of.
  set (url := default ""%string (Doc.image_url asana)).
  rewrite R_bind_eq, Paragraph_eq.
  destruct (parse_paragraph _ Title) as [[]|e]; [|done].
  cbv zeta. rewrite R_bind_eq.
  destruct (truthy url) eqn:Hurl.
  - rewrite R_bind_eq, fetch_image_eq. cbv zeta.
    match goal with |- context [(Ok ?g, Out _ _)] => set (got := g) end.
    destruct got as [stream|].
    + unfold Image. rewrite !R_bind_eq. unfold lift_result.
      destruct (open_image stream) as [[]|e]; [|done]. cbn [mret R_ret].
      intros Hrun. apply Htail in Hrun as [-> ->]. exists (Some stream).
      split; [by rewrite <- !app_assoc|]. done.
    + cbn [mret R_ret].
      intros Hrun. apply Htail in Hrun as [-> ->]. exists None.
      split; [by rewrite <- !app_assoc|]. done.
  - cbn [mret R_ret].
    intros Hrun. apply Htail in Hrun as [-> ->]. exists None.
    split; [by rewrite <- !app_assoc|]. split; [by rewrite app_nil_r|done].
Qed.

(** The loop of lines 96-122. *)
Lemma sections_returns recs elements o elements' o' :
  for_each append_section recs elements o = (Ok elements', o') →
  ∃ images,
    length images = length recs
    ∧ elements' = elements ++ concat (zip_with section images recs)
    ∧ events o' = events o ++ concat (zip_with fetch_of images recs)
    ∧ Forall2 (λ image asana,
                 truthy (default ""%string (Doc.image_url asana)) = false → image = None)
              images recs.
Proof.
  revert elements o. induction recs as [|asana recs IH]; intros elements o.
  - intros [= <- <-]. exists []. by rewrite !app_nil_r.
  - cbn [for_each]. rewrite R_bind_eq.
    destruct (append_section elements asana o) as [[els1|e] o1] eqn:Hone; [|done].
    apply append_section_returns in Hone as (image & -> & Hev1 & Hnone).
    intros Hrest. apply IH in Hrest as (images & Hlen & -> & Hev & Hall).
    exists (image :: images). cbn [length zip_with concat].
    rewrite Hlen, Hev, Hev1, <- !app_assoc.
    repeat split; try done. by constructor.
Qed.

Lemma generate_pdf_in_memory_eq recs o :
  generate_pdf_in_memory recs o =
  match for_each append_section recs [] o with
  | (Ok elements, o1) =>
      (doc_build letter elements add_page_border add_page_border,
       Out (world o1) (events o1 ++ [Build elements]))
  | (Raise e, o1) => (Raise e, o1)
  end.
Proof.
  unfold generate_pdf_in_memory. rewrite R_bind_eq.
  destruct (for_each append_section recs [] o) as [[elements|e] o1]; [|done].
  rewrite R_bind_eq. done.
Qed.

Lemma fetched_urls_app es1 es2 :
  fetched_urls (es1 ++ es2) = fetched_urls es1 ++ fetched_urls es2.
Proof. unfold fetched_urls. apply omap_app. Qed.

Lemma fetched_urls_sections images recs :
  Forall2 (λ image asana,
             truthy (default ""%string (Doc.image_url asana)) = false → image = None)
          images recs →
  fetched_urls (concat (zip_with fetch_of images recs)) = picture_urls recs.
Proof.
  induction 1 as [|image asana images recs _ _ IH]; [done|].
  simpl. rewrite fetched_urls_app, IH. unfold fetch_of, picture_urls. simpl.
  by destruct (truthy (default ""%string (Doc.image_url asana))).
Qed.

Lemma page_breaks_section image asana :
  length (List.filter is_page_break (section image asana)) = 1%nat.
Proof.
  unfold section. rewrite !List.filter_app, !length_app.
  assert (∀ items : list string,
    List.filter is_page_break ((λ i, EParagraph (bullet i) BodyText) <$> items) = [])
    as Hbullets by (induction items; done).
  rewrite !Hbullets. by destruct image.
Qed.

Lemma page_breaks_sections images recs :
  length images = length recs →
  length (List.filter is_page_break (concat (zip_with section images recs)))
  = length recs.
Proof.
  revert images. induction recs as [|asana recs IH]; intros [|image images] Hlen;
    try done.
  cbn [zip_with concat length] in *.
  rewrite List.filter_app, length_app, page_breaks_section, IH by lia. done.
Qed.

Lemma last_section image asana : last (section image asana) = Some EPageBreak.
Proof. unfold section. rewrite !app_assoc. apply last_snoc. Qed.

Lemma last_sections images recs :
  length images = length recs → recs ≠ [] →
  last (concat (zip_with section images recs)) = Some EPageBreak.
Proof.
  revert images. induction recs as [|asana recs IH]; intros [|image images] Hlen Hne;
    try done.
  cbn [zip_with concat length] in *.
  destruct recs as [|asana' recs].
  - destruct images; [|done]. cbn [zip_with concat]. rewrite app_nil_r.
    apply last_section.
  - rewrite last_app, IH by (done || lia). done.
Qed.

(** When the constructors accept what they are given, a turn of the loop
    returns, whatever the request for the picture did. *)
Lemma append_section_accepts elements asana o :
  (∀ text st, parse_paragraph text st = Ok ()) →
  (∀ stream, open_image stream = Ok ()) →
  ∃ elements' o', append_section elements asana o = (Ok elements', o').
Proof.
  intros Hpar Himg.
  assert (∀ items, foldM (λ (_ : ()) item, parse_paragraph (bullet item) BodyText)
                         items () = Ok ()) as Hitems.
  { induction items as [|item items IH]; [done|]. simpl. by rewrite Hpar. }
  unfold append_section. rewrite R_bind_eq, Paragraph_eq, Hpar. cbv zeta.
  rewrite R_bind_eq.
  assert (∀ (m : R (list (element Bytes))) a1 o1, m o = (Ok a1, o1) →
    ∃ elements' o',
      match m o with
      | (Ok a, o'0) =>
          (λ elements0,
             steps ← Paragraph "<b>Steps to Perform:</b>" Heading3;
             let elements1 := elements0 ++ [steps] in
             elements2 ← append_bullets elements1 (default [] (Doc.pose_direction asana));
             let elements3 := elements2 ++ [ESpacer 1 10] in
             contra ← Paragraph "<b>Contraindications:</b>" Heading3;
             let elements4 := elements3 ++ [contra] in
             elements5 ← append_bullets elements4
                           (default [] (Doc.contraindications asana));
             mret (elements5 ++ [EPageBreak])) a o'0
      | (Raise e, o'0) => (Raise e, o'0)
      end = (Ok elements', o')) as Htail.
  { intros m a1 o1 ->. rewrite R_bind_eq, Paragraph_eq, Hpar. cbv zeta.
    rewrite R_bind_eq, append_bullets_eq, Hitems.
    rewrite R_bind_eq, Paragraph_eq, Hpar.
    rewrite R_bind_eq, append_bullets_eq, Hitems. eauto. }
  destruct (truthy (default ""%string (Doc.image_url asana))).
  - match goal with |- context [match ?m o with _ => _ end] =>
      assert (∃ a1 o1, m o = (Ok a1, o1)) as (a1 & o1 & Hm)
    end.
    { rewrite R_bind_eq, fetch_image_eq. cbv zeta.
      match goal with |- context [(Ok ?g, Out _ _)] => destruct g as [stream|] end.
      - unfold Image. rewrite !R_bind_eq. unfold lift_result. rewrite Himg. eauto.
      - eauto. }
    by eapply Htail.
  - by eapply Htail.
Qed.

Lemma sections_accepts recs elements o :
  (∀ text st, parse_paragraph text st = Ok ()) →
  (∀ stream, open_image stream = Ok ()) →
  ∃ elements' o', for_each append_section recs elements o = (Ok elements', o').
Proof.
  intros Hpar Himg. revert elements o.
  induction recs as [|asana recs IH]; intros elements o; [by eexists _, _|].
  cbn [for_each]. rewrite R_bind_eq.
  destruct (append_section_accepts elements asana o Hpar Himg) as (els1 & o1 & ->).
  apply IH.
Qed.

(** *** No mail is handed over while the report is generated *)

Lemma quiet_ret {A : Type} (a : A) : quiet (mret a).
Proof. done. Qed.

Lemma quiet_lift_result {A : Type} (r : result A) : quiet (lift_result r).
Proof. done. Qed.

Lemma quiet_in_world {A : Type} (f : World → result A * World) : quiet (in_world f).
Proof. intros o. unfold in_world. by destruct (f (world o)). Qed.

Lemma quiet_emit e : is_mail e = false → quiet (emit e).
Proof.
  intros He o. unfold emit. simpl. rewrite List.filter_app. simpl.
  by rewrite He, app_nil_r.
Qed.

Lemma quiet_bind {A B : Type} (m : R A) (k : A → R B) :
  quiet m → (∀ a, quiet (k a)) → quiet (m ≫= k).
Proof.
  intros Hm Hk o. rewrite R_bind_eq. specialize (Hm o).
  destruct (m o) as [[a|e] o1]; simpl in *; [|done]. by rewrite Hk.
Qed.

Lemma quiet_try_except {A : Type} (body : R A) (handler : exn → R A) :
  quiet body → (∀ e, quiet (handler e)) → quiet (try_except body handler).
Proof.
  intros Hb Hh o. unfold try_except. specialize (Hb o).
  destruct (body o) as [[a|e] o1]; simpl in *; [done|]. by rewrite Hh.
Qed.

Lemma quiet_for_each {A S : Type} (step : S → A → R S) xs s :
  (∀ s x, quiet (step s x)) → quiet (for_each step xs s).
Proof.
  intros Hstep. revert s. induction xs as [|x xs IH]; intros s; [done|].
  cbn [for_each]. apply quiet_bind; auto.
Qed.

Lemma quiet_Paragraph text st : quiet (Paragraph text st).
Proof. apply quiet_bind; [apply quiet_lift_result|]. intros; apply quiet_ret. Qed.

Lemma quiet_fetch_image url : quiet (fetch_image url).
Proof.
  apply quiet_bind.
  - apply quiet_try_except; [|intros; apply quiet_ret].
    apply quiet_bind; [apply quiet_in_world|]. intros response.
    destruct (response.1 =? 200); [|apply quiet_ret].
    apply quiet_bind; [apply quiet_lift_result|]. intros; apply quiet_ret.
  - intros got. apply quiet_bind; [by apply quiet_emit|]. intros; apply quiet_ret.
Qed.

Lemma quiet_append_bullets elements items : quiet (append_bullets elements items).
Proof.
  apply quiet_for_each. intros els item.
  apply quiet_bind; [apply quiet_Paragraph|]. intros; apply quiet_ret.
Qed.

Lemma quiet_append_section elements asana : quiet (append_section elements asana).
Proof.
  unfold append_section.
  apply quiet_bind; [apply quiet_Paragraph|]. intros title. cbv zeta.
  apply quiet_bind.
  - destruct (truthy _); [|apply quiet_ret].
    apply quiet_bind; [apply quiet_fetch_image|]. intros [stream|]; [|apply quiet_ret].
    apply quiet_bind; [|intros; apply quiet_ret].
    apply quiet_bind; [apply quiet_lift_result|]. intros; apply quiet_ret.
  - intros els. apply quiet_bind; [apply quiet_Paragraph|]. intros steps.
    apply quiet_bind; [apply quiet_append_bullets|]. intros els2.
    apply quiet_bind; [apply quiet_Paragraph|]. intros contra.
    apply quiet_bind; [apply quiet_append_bullets|]. intros; apply quiet_ret.
Qed.

Lemma quiet_generate_pdf_in_memory recs : quiet (generate_pdf_in_memory recs).
Proof.
  apply quiet_bind; [apply quiet_for_each, quiet_append_section|]. intros els.
  apply quiet_bind; [by apply quiet_emit|]. intros; apply quiet_lift_result.
Qed.

(** *** The mail and the routes, unfolded *)

Lemma send_email_eq user_email pdf_stream o :
  send_email user_email pdf_stream o =
  let sent := smtp_session (message user_email pdf_stream) (world o) in
  (Ok (), Out sent.2 (events o ++ [Mail (message user_email pdf_stream)
                                        (Recommender.returned sent.1)])).
Proof.
  unfold send_email, try_except, message. cbv zeta.
  by destruct (smtp_session _ (world o)) as [[[]|e] w].
Qed.

Lemma route_bind_eq {A B : Type} (m : route A) (k : A → route B) s :
  (m ≫= k) s =
  match m s with
  | (Ok a, s') => k a s'
  | (Raise e, s') => (Raise e, s')
  end.
Proof. reflexivity. Qed.

Lemma get_recommendations_eq form email age gender self o :
  form !! "email" = Some email →
  form !! "age" = Some age →
  form !! "gender" = Some gender →
  get_recommendations form (self, o) =
  match recommend (form !! "health_issue") age gender self with
  | (Raise e, self') => (Raise e, (self', o))
  | (Ok [], self') => (Ok (Jsonify false "No suitable yoga asanas found."), (self', o))
  | (Ok (asana :: recs), self') =>
      match generate_pdf_in_memory (asana :: recs) o with
      | (Raise _, o1) =>
          (Ok (Jsonify false "Error sending recommendations."), (self', o1))
      | (Ok pdf_stream, o1) =>
          (Ok (Jsonify true "Recommendations sent successfully!"),
           (self', (send_email email pdf_stream o1).2))
      end
  end.
Proof.
  intros Hemail Hage Hgender. unfold get_recommendations.
  rewrite route_bind_eq. unfold form_item at 1. rewrite Hemail.
  rewrite route_bind_eq. unfold form_item at 1. rewrite Hage.
  rewrite route_bind_eq. unfold form_item at 1. rewrite Hgender.
  cbv zeta. rewrite route_bind_eq. unfold on_recommender at 1. simpl.
  destruct (recommend (form !! "health_issue") age gender self) as [[recs|e] self'];
    [|done].
  destruct recs as [|asana recs]; [done|].
  unfold route_try. rewrite route_bind_eq. unfold on_outside at 1. simpl.
  destruct (generate_pdf_in_memory (asana :: recs) o) as [[pdf|e] o1]; [|done].
  rewrite route_bind_eq. unfold on_outside. simpl.
  rewrite send_email_eq. done.
Qed.

Lemma index_eq o :
  index o =
  let found := find_one_quotes (world o) in
  match found.1 with
  | Ok (Some (Some all_quotes)) =>
      let drawn := random_sample all_quotes (3 `min` length all_quotes) found.2 in
      (Ok (RenderTemplate "index.html"
             match drawn.1 with
             | Ok random_quotes => random_quotes
             | Raise _ => replicate 3 "Error loading quotes."%string
             end),
       Out drawn.2 (events o))
  | Ok (Some None) | Ok None =>
      (Ok (RenderTemplate "index.html" (replicate 3 "No quotes available."%string)),
       Out found.2 (events o))
  | Raise _ =>
      (Ok (RenderTemplate "index.html" (replicate 3 "Error loading quotes."%string)),
       Out found.2 (events o))
  end.
Proof.
  unfold index. rewrite R_bind_eq. unfold try_except. rewrite R_bind_eq.
  unfold in_world at 1. cbv zeta.
  destruct (find_one_quotes (world o)) as [[[[all_quotes|]|]|e] w]; simpl; try done.
  unfold in_world. simpl.
  by destruct (random_sample all_quotes _ w) as [[qs|e] w'].
Qed.

End WithOutside.
End ReportFacts.


(** ** Properties of the report, the mail and the routes *)

Section ReportProperties.
Import Report App ReportFacts.
Context `{SetOrder} `{Backend} `{!Outside}.

(** The report [generate_pdf_in_memory] builds is one section per
    recommended pose, in the order of the recommendations: what it hands
    to [doc.build] is the concatenation of the poses' sections (title,
    picture when one was fetched, steps, contraindications, page break), a
    pose without a picture URL getting no picture; before that it made
    the poses' requests, and nothing else. *)
Theorem report_is_the_sections recs o pdf o' :
  generate_pdf_in_memory recs o = (Ok pdf, o') →
  ∃ images,
    length images = length recs
    ∧ Forall2 (λ image asana,
                 truthy (default ""%string (Doc.image_url asana)) = false → image = None)
              images recs
    ∧ events o' = events o ++ concat (zip_with fetch_of images recs)
                  ++ [Build (concat (zip_with section images recs))]
    ∧ doc_build letter (concat (zip_with section images recs))
        add_page_border add_page_border = Ok pdf.
Proof.
  rewrite generate_pdf_in_memory_eq.
  destruct (for_each append_section recs [] o) as [[elements|e] o1] eqn:Hloop; [|done].
  apply sections_returns in Hloop as (images & Hlen & -> & Hev & Hall).
  intros [= Hbuild <-]. exists images. simpl. rewrite Hev, <- app_assoc. done.
Qed.

(** A report that is generated has requested exactly the picture URLs of
    the recommended poses that are not empty, in order, once each: a pose
    without [image_url], or with an empty one, causes no request. *)
Theorem report_requests_the_picture_urls recs o pdf o' :
  generate_pdf_in_memory recs o = (Ok pdf, o') →
  fetched_urls (events o') = fetched_urls (events o) ++ picture_urls recs.
Proof.
  rewrite generate_pdf_in_memory_eq.
  destruct (for_each append_section recs [] o) as [[elements|e] o1] eqn:Hloop; [|done].
  apply sections_returns in Hloop as (images & Hlen & -> & Hev & Hall).
  intros [= Hbuild <-]. simpl.
  rewrite Hev, !fetched_urls_app, (fetched_urls_sections _ _ Hall). simpl.
  by rewrite app_nil_r.
Qed.

(** Every pose ends its page: the list handed to [doc.build] holds as
    many page breaks as there are recommendations, ends with one when there
    is a recommendation, and is empty when there is none. *)
Theorem report_one_page_break_per_pose recs o pdf o' :
  generate_pdf_in_memory recs o = (Ok pdf, o') →
  ∃ elements,
    last (events o') = Some (Build elements)
    ∧ length (List.filter is_page_break elements) = length recs
    ∧ (recs ≠ [] → last elements = Some EPageBreak)
    ∧ (recs = [] → elements = []).
Proof.
  rewrite generate_pdf_in_memory_eq.
  destruct (for_each append_section recs [] o) as [[elements|e] o1] eqn:Hloop; [|done].
  apply sections_returns in Hloop as (images & Hlen & -> & Hev & Hall).
  intros [= Hbuild <-]. eexists. simpl. split; [apply last_snoc|].
  split; [by apply page_breaks_sections|]. split; [by apply last_sections|].
  intros ->. by destruct images.
Qed.

(** A picture that cannot be fetched costs the report nothing but the
    picture: when ReportLab accepts every paragraph and every picture it is
    given, the loop over the poses returns whatever the requests did, and
    the only exception [generate_pdf_in_memory] can raise is that of
    [doc.build]. *)
Theorem report_survives_failed_pictures recs o :
  (∀ text st, parse_paragraph text st = Ok ()) →
  (∀ stream, open_image stream = Ok ()) →
  ∃ elements o',
    generate_pdf_in_memory recs o
    = (doc_build letter elements add_page_border add_page_border, o').
Proof.
  intros Hpar Himg. rewrite generate_pdf_in_memory_eq.
  destruct (sections_accepts recs [] o Hpar Himg) as (elements & o1 & ->). eauto.
Qed.

(** [fetch_image] never raises, whatever the request does: it returns a
    stream exactly when the request returned with status 200 and its content
    could be read, and [None] in every other case (an exception of the
    request or of the reading, or another status). *)
Theorem fetch_image_never_raises url o :
  ∃ got o',
    fetch_image url o = (Ok got, o')
    ∧ ∀ content, got = Some content
                 ↔ (requests_get url (world o)).1 = Ok (200, Ok content).
Proof.
  rewrite fetch_image_eq. cbv zeta. eexists _, _. split; [reflexivity|].
  intros content.
  destruct (requests_get url (world o)) as [[[status [c|e]]|e] w]; cbn [fst snd];
    try (split; congruence).
  destruct (status =? 200) eqn:Hstatus.
  - apply Z.eqb_eq in Hstatus as ->. split; congruence.
  - apply Z.eqb_neq in Hstatus. split; congruence.
Qed.

(** [send_email] never raises: it hands one message to the SMTP session,
    addressed to the user and carrying the report, and returns whether the
    session returned or raised. *)
Theorem send_email_never_raises user_email pdf_stream o :
  ∃ o' ok,
    send_email user_email pdf_stream o = (Ok (), o')
    ∧ events o' = events o ++ [Mail (message user_email pdf_stream) ok]
    ∧ To (message user_email pdf_stream) = user_email
    ∧ payload (message user_email pdf_stream) = pdf_stream
    ∧ (ok = true
       ↔ (smtp_session (message user_email pdf_stream) (world o)).1 = Ok ()).
Proof.
  rewrite send_email_eq. cbv zeta. eexists _, _. split; [reflexivity|].
  split; [reflexivity|]. split; [reflexivity|]. split; [reflexivity|].
  destruct (smtp_session _ (world o)) as [[[]|e] w]; cbn; split; congruence.
Qed.

(** The home page is rendered whatever the quotes collection and
    [random.sample] do: [index] returns the template [index.html] with some
    quotes, and shows the error text three times when the lookup or the
    sampling raises. *)
Theorem index_always_renders o :
  ∃ quotes o',
    index o = (Ok (RenderTemplate "index.html" quotes), o')
    ∧ events o' = events o
    ∧ (∀ e, (find_one_quotes (world o)).1 = Raise e →
            quotes = replicate 3 "Error loading quotes."%string)
    ∧ (∀ all_quotes e,
         (find_one_quotes (world o)).1 = Ok (Some (Some all_quotes)) →
         (random_sample all_quotes (3 `min` length all_quotes)
            (find_one_quotes (world o)).2).1 = Raise e →
         quotes = replicate 3 "Error loading quotes."%string).
Proof.
  rewrite index_eq. cbv zeta.
  destruct (find_one_quotes (world o)) as [[[[all_quotes|]|]|e] w]; cbn [fst snd];
    eexists _, _; (split; [reflexivity|]); (split; [reflexivity|]);
    (split; [try congruence; reflexivity|]); try congruence.
  intros qs e [= <-] Hdraw. by rewrite Hdraw.
Qed.

(** The route answers success once the report is generated, whatever the
    SMTP session did: [send_email] catches every exception of the session,
    so a mail that was not sent and a mail that was sent get the same
    answer. *)
Theorem route_reports_success_whatever_smtp form email age gender self o
    asana recs self' pdf o1 :
  form !! "email" = Some email →
  form !! "age" = Some age →
  form !! "gender" = Some gender →
  recommend (form !! "health_issue") age gender self = (Ok (asana :: recs), self') →
  generate_pdf_in_memory (asana :: recs) o = (Ok pdf, o1) →
  get_recommendations form (self, o)
  = (Ok (Jsonify true "Recommendations sent successfully!"),
     (self',
      Out (smtp_session (message email pdf) (world o1)).2
          (events o1 ++ [Mail (message email pdf)
                              (Recommender.returned
                                 (smtp_session (message email pdf) (world o1)).1)]))).
Proof.
  intros Hemail Hage Hgender Hrec Hpdf.
  rewrite (get_recommendations_eq _ _ _ _ _ _ Hemail Hage Hgender), Hrec, Hpdf.
  by rewrite send_email_eq.
Qed.

Lemma route_without_recommendation form email age gender self o self' :
  form !! "email" = Some email →
  form !! "age" = Some age →
  form !! "gender" = Some gender →
  recommend (form !! "health_issue") age gender self = (Ok [], self') →
  get_recommendations form (self, o)
  = (Ok (Jsonify false "No suitable yoga asanas found."), (self', o)).
Proof.
  intros Hemail Hage Hgender Hrec.
  by rewrite (get_recommendations_eq _ _ _ _ _ _ Hemail Hage Hgender), Hrec.
Qed.

(** The [try] of the route starts after the recommendation: an exception
    of [recommend_asanas] leaves the route as it is. *)
Lemma route_lets_exceptions_through form email age gender self o e self' :
  form !! "email" = Some email →
  form !! "age" = Some age →
  form !! "gender" = Some gender →
  recommend (form !! "health_issue") age gender self = (Raise e, self') →
  get_recommendations form (self, o) = (Raise e, (self', o)).
Proof.
  intros Hemail Hage Hgender Hrec.
  by rewrite (get_recommendations_eq _ _ _ _ _ _ Hemail Hage Hgender), Hrec.
Qed.

(** When the matched benefits list no pose (so when no benefit matches
    the query) the route answers that nothing suitable was found, whatever
    the age and the gender of the form are, an age that is no number
    included; and it has not touched the outside: no request, no document,
    no mail. *)
Theorem route_without_match form email age gender q self o matching :
  form !! "email" = Some email →
  form !! "age" = Some age →
  form !! "gender" = Some gender →
  form !! "health_issue" = Some q →
  (Recommender.find_all_matching_benefits q default_threshold self).1 = Ok matching →
  Filter.visited (Recommender.asana_map self) matching = [] →
  get_recommendations form (self, o)
  = (Ok (Jsonify false "No suitable yoga asanas found."),
     ((Recommender.find_all_matching_benefits q default_threshold self).2, o)).
Proof.
  intros Hemail Hage Hgender Hq Hfind Hvis.
  apply (route_without_recommendation _ email age gender); try done.
  rewrite Hq. unfold recommend. rewrite RecommenderFacts.recommend_asanas_eq.
  pose proof (RecommenderFacts.find_all_frame q default_threshold self) as (_ & Hmap & _).
  destruct (Recommender.find_all_matching_benefits q default_threshold self) as [r s].
  simpl in *. subst r. by rewrite Hmap, FilterFacts.recommend_loop_eq, Hvis.
Qed.

(** An age that is no number is not answered with a message: when a
    matched benefit lists a pose, the route raises the [ValueError] of
    [int(age)] (Flask turns it into a server error), and it has not touched
    the outside. *)
Theorem route_raises_on_unparseable_age form email age gender q self o matching
    a rest min_age :
  form !! "email" = Some email →
  form !! "age" = Some age →
  form !! "gender" = Some gender →
  form !! "health_issue" = Some q →
  int_of_str age = None →
  (Recommender.find_all_matching_benefits q default_threshold self).1 = Ok matching →
  Filter.visited (Recommender.asana_map self) matching = a :: rest →
  Filter.asana_age a = Ok min_age →
  get_recommendations form (self, o)
  = (Raise ValueError,
     ((Recommender.find_all_matching_benefits q default_threshold self).2, o)).
Proof.
  intros Hemail Hage Hgender Hq Hparse Hfind Hvis Hmin.
  apply (route_lets_exceptions_through _ email age gender); try done.
  rewrite Hq. unfold recommend. rewrite RecommenderFacts.recommend_asanas_eq.
  pose proof (RecommenderFacts.find_all_frame q default_threshold self) as (_ & Hmap & _).
  destruct (Recommender.find_all_matching_benefits q default_threshold self) as [r s].
  simpl in *. subst r. rewrite Hmap, FilterFacts.recommend_loop_eq, Hvis. simpl.
  unfold Filter.condition. rewrite Hmin. simpl. by rewrite Hparse.
Qed.

(** When the report cannot be generated the route answers with the
    error message, and no mail has been handed to the SMTP session. *)
Theorem route_sends_nothing_without_report form email age gender self o
    asana recs self' e o1 :
  form !! "email" = Some email →
  form !! "age" = Some age →
  form !! "gender" = Some gender →
  recommend (form !! "health_issue") age gender self = (Ok (asana :: recs), self') →
  generate_pdf_in_memory (asana :: recs) o = (Raise e, o1) →
  get_recommendations form (self, o)
  = (Ok (Jsonify false "Error sending recommendations."), (self', o1))
  ∧ List.filter is_mail (events o1) = List.filter is_mail (events o).
Proof.
  intros Hemail Hage Hgender Hrec Hpdf.
  rewrite (get_recommendations_eq _ _ _ _ _ _ Hemail Hage Hgender), Hrec, Hpdf.
  split; [done|].
  pose proof (quiet_generate_pdf_in_memory (asana :: recs) o) as Hquiet.
  by rewrite Hpdf in Hquiet.
Qed.

(** A form without [email], [age] or [gender] makes the route raise
    [KeyError] at once: the recommender and the outside are as they were,
    so no model is loaded for such a request. *)
Theorem route_rejects_incomplete_form form s :
  form !! "email" = None ∨ form !! "age" = None ∨ form !! "gender" = None →
  get_recommendations form s = (Raise KeyError, s).
Proof.
  intros Hmissing. unfold get_recommendations.
  rewrite route_bind_eq. unfold form_item at 1.
  destruct (form !! "email") as [email|]; [|done].
  rewrite route_bind_eq. unfold form_item at 1.
  destruct (form !! "age") as [age|]; [|done].
  rewrite route_bind_eq. unfold form_item at 1.
  destruct (form !! "gender") as [gender|]; [|done].
  naive_solver.
Qed.

(** The home page never raises.  With a quotes document it shows the
    quotes [random.sample] drew: [min(3, n)] of the [n] stored, each stored
    quote used at most as often as it is stored, so none at all when the
    stored list is empty; with no document, or one without quotes, it shows
    the placeholder three times; when the lookup raises, the error text
    three times. *)
Theorem index_shows_at_most_three_quotes `{!SampleLaws} o :
  ∃ quotes o',
    index o = (Ok (RenderTemplate "index.html" quotes), o')
    ∧ events o' = events o
    ∧ match (find_one_quotes (world o)).1 with
      | Ok (Some (Some all_quotes)) =>
          length quotes = (3 `min` length all_quotes)%nat ∧ quotes ⊆+ all_quotes
      | Ok (Some None) | Ok None => quotes = replicate 3 "No quotes available."%string
      | Raise _ => quotes = replicate 3 "Error loading quotes."%string
      end.
Proof.
  rewrite index_eq. cbv zeta.
  destruct (find_one_quotes (world o)) as [[[[all_quotes|]|]|e] w]; cbn [fst snd];
    try by eexists _, _.
  destruct (sample_within all_quotes (3 `min` length all_quotes) w)
    as (s & Hs & Hlen & Hsub); [lia|].
  destruct (random_sample all_quotes (3 `min` length all_quotes) w) as [r w'].
  cbn [fst snd] in *. subst r. by eexists _, _.
Qed.

End ReportProperties.


(** ** More of the catalog, the filter and the matcher *)

Section RecommenderProperties.
Import Recommender RecommenderFacts.
Context `{SetOrder} `{Backend}.

(** Looking a label up in the reverse index gives the poses of the
    catalog that list it, in catalog order, a pose once per time it lists
    the label; a label no pose lists has no entry (never an empty one). *)
Theorem reverse_index_lookup catalog b :
  asana_map (__init__ catalog) !! b
  = if decide (Catalog.entries b catalog = []) then None
    else Some (Catalog.entries b catalog).
Proof.
  simpl. pose proof (CatalogFacts.get_build catalog b) as Hget.
  unfold Catalog.get in Hget.
  destruct ((Catalog.build catalog).1 !! b) as [l|] eqn:Hb; simpl in Hget; subst.
  - rewrite decide_False; [done|]. intros Hnil.
    assert (b ∈ dom (Catalog.build catalog).1) as Hdom by (apply elem_of_dom; eauto).
    rewrite CatalogFacts.dom_build, CatalogFacts.labels_build in Hdom.
    apply elem_of_list_to_set, list_elem_of_bind in Hdom as (a & Hben & Ha).
    assert (a ∈ Catalog.entries b catalog) as Hin
      by by apply CatalogFacts.elem_of_entries.
    rewrite Hnil in Hin. inversion Hin.
  - by rewrite decide_True.
Qed.

(** Nothing is lost by being older: between two requests to the same
    object that differ in the age only and both return, every pose
    recommended at the lower age has its id among those recommended at the
    higher age. *)
Theorem older_user_keeps_recommendations self q age1 age2 gender
    user_age1 user_age2 res1 res2 self1 self2 :
  py_int age1 = Ok user_age1 →
  py_int age2 = Ok user_age2 →
  user_age1 ≤ user_age2 →
  recommend_asanas q age1 gender self = (Ok res1, self1) →
  recommend_asanas q age2 gender self = (Ok res2, self2) →
  ∀ a, a ∈ res1 → Doc._id a ∈ (Doc._id <$> res2).
Proof.
  intros Hage1 Hage2 Hle Hrun1 Hrun2 a Ha.
  apply recommend_asanas_inv in Hrun1 as (matching & Hfind1 & Hloop1).
  apply recommend_asanas_inv in Hrun2 as (matching2 & Hfind2 & Hloop2).
  rewrite Hfind1 in Hfind2. injection Hfind2 as <- _.
  apply recommend_loop_Ok in Hloop1 as [_ ->].
  apply recommend_loop_Ok in Hloop2 as [Hnone ->].
  apply keep_new_elem in Ha as (Hvis & Hok & _).
  apply keep_new_ids. split; [set_solver|]. exists a. split; [done|]. split; [|done].
  destruct (proj1 (first_raise_None _ _ _) Hnone a Hvis) as [b Hb].
  unfold condition_true in *. rewrite Hb.
  unfold condition in *. rewrite Hage1 in Hok. rewrite Hage2 in Hb.
  destruct (asana_age a) as [min_age|e]; [|done]. simpl in *.
  destruct (Z.leb_spec min_age user_age1); [|done].
  destruct (Z.leb_spec min_age user_age2); [|lia].
  rewrite Hb in Hok. done.
Qed.

(** A benefit matched twice counts once: appending to the matched
    benefits labels that are already among them changes neither the list
    the loops return nor the exception they raise. *)
Theorem repeated_benefits_change_nothing asana_map bs1 bs2 age gender :
  bs2 ⊆ bs1 →
  recommend_loop asana_map (bs1 ++ bs2) age gender
  = recommend_loop asana_map bs1 age gender.
Proof.
  intros Hsub. rewrite !recommend_loop_eq.
  assert (visited asana_map (bs1 ++ bs2)
          = visited asana_map bs1 ++ visited asana_map bs2) as ->
    by apply bind_app.
  assert (∀ a, a ∈ visited asana_map bs2 → a ∈ visited asana_map bs1) as Hvis.
  { intros a Ha. unfold visited in *.
    apply list_elem_of_bind in Ha as (b & Ha & Hb).
    apply list_elem_of_bind. exists b. split; [done|]. by apply Hsub. }
  rewrite first_raise_app.
  destruct (first_raise age gender (visited asana_map bs1)) as [e|] eqn:Hfirst; [done|].
  assert (first_raise age gender (visited asana_map bs2) = None) as ->.
  { apply first_raise_None. intros a Ha.
    by apply (proj1 (first_raise_None _ _ _) Hfirst), Hvis. }
  rewrite keep_new_app. f_equal.
  match goal with |- _ ++ ?l = _ => assert (l = []) as -> end; [|by rewrite app_nil_r].
  match goal with |- keep_new ?ok ?seen ?l = [] =>
    destruct (keep_new ok seen l) as [|a rest] eqn:Hkeep; [done|];
    assert (a ∈ keep_new ok seen l) as Hin by (rewrite Hkeep; left)
  end.
  apply keep_new_elem in Hin as (Ha & Hok & Hnew). exfalso. apply Hnew.
  apply elem_of_union_l, elem_of_list_to_set, keep_new_ids.
  split; [set_solver|]. eauto.
Qed.

Lemma find_all_returned q thr self found self1 :
  find_all_matching_benefits q thr self = (Ok found, self1) →
  ∃ m ix self0,
    model self0 = Some m ∧ index self0 = Some ix
    ∧ self1 = with_call (CallSearch (length (health_benefits self0)))
                (with_call (CallEncode [q]) self0)
    ∧ (d0 ← py_index (search ix (encode m [q]) (length (health_benefits self0))).1 0;
       i0 ← py_index (search ix (encode m [q]) (length (health_benefits self0))).2 0;
       select_benefits (health_benefits self0) thr (zip d0 i0)) = Ok found.
Proof.
  rewrite find_all_matching_benefits_eq.
  destruct (build_faiss_index self) as [[[]|e] self0]; [|done].
  destruct (model self0) as [m|] eqn:Hm; [|done].
  destruct (index self0) as [ix|] eqn:Hix; [|done]. cbv zeta.
  intros [= Hfound <-]. eauto 10.
Qed.

Lemma find_all_warm q thr self m ix :
  model self = Some m → index self = Some ix →
  find_all_matching_benefits q thr self =
  ((d0 ← py_index (search ix (encode m [q]) (length (health_benefits self))).1 0;
    i0 ← py_index (search ix (encode m [q]) (length (health_benefits self))).2 0;
    select_benefits (health_benefits self) thr (zip d0 i0)),
   with_call (CallSearch (length (health_benefits self)))
     (with_call (CallEncode [q]) self)).
Proof.
  intros Hm Hix. rewrite find_all_matching_benefits_eq, build_faiss_index_eq, Hix.
  by rewrite Hm, Hix.
Qed.

(** Once a match has returned, every later match, for whatever query and
    threshold, calls the backend twice, to embed the query and to search;
    it loads no model, embeds no vocabulary and builds no index, and leaves
    the model and the index held as they are. *)
Theorem later_matches_only_embed_and_search q thr self found self1 q' thr' :
  find_all_matching_benefits q thr self = (Ok found, self1) →
  model (find_all_matching_benefits q' thr' self1).2 = model self1
  ∧ index (find_all_matching_benefits q' thr' self1).2 = index self1
  ∧ calls (find_all_matching_benefits q' thr' self1).2
    = calls self1 ++ [CallEncode [q']; CallSearch (length (health_benefits self1))].
Proof.
  intros Hfirst. apply find_all_returned in Hfirst as (m & ix & self0 & Hm & Hix & -> & _).
  rewrite (find_all_warm q' thr' _ m ix) by done. simpl.
  by rewrite <- app_assoc.
Qed.

(** Building lazily changes no answer: the match that built the index
    and a later match for the same query and threshold return the same
    labels. *)
Theorem repeated_match_returns_the_same q thr self found self1 :
  find_all_matching_benefits q thr self = (Ok found, self1) →
  (find_all_matching_benefits q thr self1).1 = Ok found.
Proof.
  intros Hfirst.
  apply find_all_returned in Hfirst as (m & ix & self0 & Hm & Hix & -> & Hfound).
  rewrite (find_all_warm q thr _ m ix) by done. done.
Qed.

End RecommenderProperties.


(** ** The properties on the small catalogs *)

Section OnSmallOutside.
Import Recommender RecommenderFacts Report App ReportFacts Toy ToyOutside.

#[local] Instance toy_sample_laws : SampleLaws.
Proof.
  intros l k w Hk. exists (take k l). split; [done|]. split.
  - rewrite length_take. lia.
  - apply sublist_submseteq, sublist_take.
Qed.

(** A run is known by its result: the state it leaves is its second
    component. *)
Lemma run_fst {A S} (run : A * S) (a : A) : run.1 = a → run = (a, run.2).
Proof. intros <-. by destruct run. Qed.

Lemma report_is_the_sections_witness :
  generate_pdf_in_memory two_pictures fresh
  = (Ok 18%nat, (generate_pdf_in_memory two_pictures fresh).2)
  ∧ ∃ images,
      length images = length two_pictures
      ∧ doc_build letter (concat (zip_with section images two_pictures))
          add_page_border add_page_border = Ok 18%nat.
Proof.
  split; [reflexivity|].
  destruct (report_is_the_sections two_pictures fresh 18%nat
              (generate_pdf_in_memory two_pictures fresh).2)
    as (images & Hlen & _ & _ & Hbuild); [reflexivity|].
  exists images. split; [exact Hlen|exact Hbuild].
Defined.

Lemma report_requests_the_picture_urls_witness :
  generate_pdf_in_memory two_pictures fresh
  = (Ok 18%nat, (generate_pdf_in_memory two_pictures fresh).2)
  ∧ fetched_urls (events (generate_pdf_in_memory two_pictures fresh).2)
    = fetched_urls (events fresh) ++ picture_urls two_pictures.
Proof.
  split; [reflexivity|].
  apply (report_requests_the_picture_urls two_pictures fresh 18%nat).
  reflexivity.
Defined.

Lemma report_one_page_break_per_pose_witness :
  generate_pdf_in_memory two_pictures fresh
  = (Ok 18%nat, (generate_pdf_in_memory two_pictures fresh).2)
  ∧ ∃ elements,
      last (events (generate_pdf_in_memory two_pictures fresh).2) = Some (Build elements)
      ∧ length (List.filter is_page_break elements) = length two_pictures
      ∧ (two_pictures ≠ [] → last elements = Some EPageBreak)
      ∧ (two_pictures = [] → elements = []).
Proof.
  split; [reflexivity|].
  apply (report_one_page_break_per_pose two_pictures fresh 18%nat).
  reflexivity.
Defined.

Lemma report_survives_failed_pictures_witness :
  (∀ text st, parse_paragraph text st = Ok ())
  ∧ (∀ stream, open_image stream = Ok ())
  ∧ ∃ elements o',
      generate_pdf_in_memory [plank] fresh
      = (doc_build letter elements add_page_border add_page_border, o').
Proof.
  split; [reflexivity|]. split; [reflexivity|].
  apply (report_survives_failed_pictures [plank] fresh); reflexivity.
Defined.

Lemma route_reports_success_whatever_smtp_witness :
  (smtp_session (message "a@b.c" 18%nat) 2%nat).1 = Raise (ExternalError "SMTPException")
  ∧ (get_recommendations (form_of "a@b.c" "30" "female" "back pain")
       (__init__ two_pictures, fresh)).1
    = Ok (Jsonify true "Recommendations sent successfully!").
Proof.
  split; [reflexivity|].
  rewrite (route_reports_success_whatever_smtp
             (form_of "a@b.c" "30" "female" "back pain") "a@b.c" "30" "female"
             (__init__ two_pictures) fresh bridge [plank]
             (recommend (Some "back pain") "30" "female" (__init__ two_pictures)).2
             18%nat (generate_pdf_in_memory two_pictures fresh).2).
  - reflexivity.
  - vm_compute; reflexivity.
  - vm_compute; reflexivity.
  - vm_compute; reflexivity.
  - apply run_fst. vm_compute; reflexivity.
  - reflexivity.
Defined.

Lemma route_sends_nothing_without_report_witness :
  get_recommendations (form_of "a@b.c" "30" "female" "back pain")
    (__init__ picture_catalog, fresh)
  = (Ok (Jsonify false "Error sending recommendations."),
     ((recommend (Some "back pain") "30" "female" (__init__ picture_catalog)).2,
      (generate_pdf_in_memory picture_catalog fresh).2))
  ∧ List.filter is_mail (events (generate_pdf_in_memory picture_catalog fresh).2)
    = List.filter is_mail (events fresh).
Proof.
  apply (route_sends_nothing_without_report
           (form_of "a@b.c" "30" "female" "back pain") "a@b.c" "30" "female"
           (__init__ picture_catalog) fresh bridge [plank; childs_pose]
           (recommend (Some "back pain") "30" "female" (__init__ picture_catalog)).2
           (ExternalError "LayoutError")
           (generate_pdf_in_memory picture_catalog fresh).2).
  - vm_compute; reflexivity.
  - vm_compute; reflexivity.
  - vm_compute; reflexivity.
  - apply run_fst. vm_compute; reflexivity.
  - reflexivity.
Defined.

Lemma route_rejects_incomplete_form_witness :
  ({[ "email" := "a@b.c" ]} : gmap string string) !! "age" = None
  ∧ get_recommendations {[ "email" := "a@b.c" ]} (__init__ two_pictures, fresh)
    = (Raise KeyError, (__init__ two_pictures, fresh)).
Proof.
  split; [reflexivity|].
  apply (route_rejects_incomplete_form {[ "email" := "a@b.c" ]}).
  right. left. reflexivity.
Defined.

Lemma route_without_match_witness :
  int_of_str "abc" = None
  ∧ (get_recommendations (form_of "a@b.c" "abc" "female" "unrelated concern")
       (__init__ two_pictures, fresh)).1
    = Ok (Jsonify false "No suitable yoga asanas found.").
Proof.
  split; [reflexivity|].
  rewrite (route_without_match
             (form_of "a@b.c" "abc" "female" "unrelated concern")
             "a@b.c" "abc" "female" "unrelated concern"
             (__init__ two_pictures) fresh []);
    vm_compute; reflexivity.
Defined.

Lemma route_raises_on_unparseable_age_witness :
  int_of_str "abc" = None
  ∧ (get_recommendations (form_of "a@b.c" "abc" "female" "back pain")
       (__init__ two_pictures, fresh)).1
    = Raise ValueError.
Proof.
  split; [reflexivity|].
  rewrite (route_raises_on_unparseable_age
             (form_of "a@b.c" "abc" "female" "back pain")
             "a@b.c" "abc" "female" "back pain"
             (__init__ two_pictures) fresh ["back pain"] bridge [plank] 10);
    vm_compute; reflexivity.
Defined.

Lemma index_shows_at_most_three_quotes_witness :
  SampleLaws
  ∧ ∃ quotes o',
      index fresh = (Ok (RenderTemplate "index.html" quotes), o')
      ∧ length quotes = 2%nat.
Proof.
  split; [exact toy_sample_laws|].
  destruct (index_shows_at_most_three_quotes fresh) as (quotes & o' & Hrun & _ & Hlen & _).
  exists quotes, o'. split; [exact Hrun|exact Hlen].
Defined.

Lemma older_user_keeps_recommendations_witness :
  (recommend_asanas "back pain" (PyStr "5") (PyStr "female") (__init__ small_catalog)).1
  = Ok [childs_pose; warrior]
  ∧ ∀ a, a ∈ [childs_pose; warrior] →
         Doc._id a ∈ (Doc._id <$> [childs_pose; warrior]).
Proof.
  split; [vm_compute; reflexivity|].
  apply (older_user_keeps_recommendations (__init__ small_catalog) "back pain"
           (PyStr "5") (PyStr "30") (PyStr "female") 5 30
           [childs_pose; warrior] [childs_pose; warrior]
           (recommend_asanas "back pain" (PyStr "5") (PyStr "female")
              (__init__ small_catalog)).2
           (recommend_asanas "back pain" (PyStr "30") (PyStr "female")
              (__init__ small_catalog)).2).
  - vm_compute; reflexivity.
  - vm_compute; reflexivity.
  - lia.
  - apply run_fst. vm_compute; reflexivity.
  - apply run_fst. vm_compute; reflexivity.
Defined.

Lemma repeated_benefits_change_nothing_witness :
  recommend_loop (Catalog.build small_catalog).1
    (["back pain"; "stress relief"] ++ ["back pain"]) (PyStr "30") (PyStr "all")
  = recommend_loop (Catalog.build small_catalog).1
      ["back pain"; "stress relief"] (PyStr "30") (PyStr "all").
Proof.
  apply (repeated_benefits_change_nothing (Catalog.build small_catalog).1
           ["back pain"; "stress relief"] ["back pain"]).
  intros b Hb. apply list_elem_of_singleton in Hb as ->. apply list_elem_of_here.
Defined.

Lemma later_matches_only_embed_and_search_witness :
  (find_all_matching_benefits "back pain" default_threshold (__init__ small_catalog)).1
  = Ok ["back pain"]
  ∧ calls (find_all_matching_benefits "stress relief" default_threshold
             (find_all_matching_benefits "back pain" default_threshold
                (__init__ small_catalog)).2).2
    = calls (find_all_matching_benefits "back pain" default_threshold
               (__init__ small_catalog)).2
      ++ [CallEncode ["stress relief"]; CallSearch 2].
Proof.
  split; [vm_compute; reflexivity|].
  destruct (later_matches_only_embed_and_search "back pain" default_threshold
              (__init__ small_catalog) ["back pain"]
              (find_all_matching_benefits "back pain" default_threshold
                 (__init__ small_catalog)).2 "stress relief" default_threshold)
    as (_ & _ & Hcalls); [apply run_fst; vm_compute; reflexivity|exact Hcalls].
Defined.

Lemma repeated_match_returns_the_same_witness :
  (find_all_matching_benefits "back pain" default_threshold (__init__ small_catalog)).1
  = Ok ["back pain"]
  ∧ (find_all_matching_benefits "back pain" default_threshold
       (find_all_matching_benefits "back pain" default_threshold
          (__init__ small_catalog)).2).1
    = Ok ["back pain"].
Proof.
  split; [vm_compute; reflexivity|].
  apply (repeated_match_returns_the_same "back pain" default_threshold
           (__init__ small_catalog) ["back pain"]
           (find_all_matching_benefits "back pain" default_threshold
              (__init__ small_catalog)).2).
  apply run_fst. vm_compute; reflexivity.
Defined.

End OnSmallOutside.
